(** * benchmark.go: a shallow embedding and its verified properties

    The Go package [benchmark] compiles every sub-directory of a source
    directory with a C compiler, runs [perf stat] on the executable and
    reads the runtime and its uncertainty back from the report that perf
    wrote.  This file embeds the package function by function and proves
    the properties of its specification against the embedding.

    Conventions of the embedding.
    - A Go [string] that holds a file name, a path or a message is a
      [string]; the text of a report is kept as the sequence of runes that
      [[]rune(s)] and the [regexp] package see.  [bufio.Reader.ReadBytes]
      splits at the byte 0x0A, which UTF-8 uses for the rune 10 and for
      nothing else, so splitting and decoding commute.
    - [float64] is IEEE 754 binary64 ([PrimFloat.float]); every operation
      is rounded on its own.
    - Go's [int] counters ([found_params], [decimal_offset]) are bounded by
      the length of the slice or file they count in, so they never wrap
      and are kept in [Z].
    - A Go [error] is its message ([err.Error()]); [nil] is [None].
    - The file system is a tree whose root is the working directory of the
      process; symbolic links, [..] and permission checks are outside the
      model. *)

From Stdlib Require Import ZArith Floats PrimFloat Uint63 SpecFloat Ascii String.
From stdpp Require Import gmap strings list fin_maps sorting pretty.

Set Warnings "-inexact-float,-register-all".
Set Default Proof Using "Type".
Open Scope Z_scope.

(** ** Go values *)

Definition rune := Z.
Definition error := option string.

Definition dquote : string := String (ascii_of_nat 34) EmptyString.
Definition newline : string := String (ascii_of_nat 10) EmptyString.

(** The runes of an ASCII literal (used to write report texts down). *)
Definition runes (s : string) : list rune :=
  (λ a, Z.of_nat (nat_of_ascii a)) <$> list_ascii_of_string s.

(** [type Configuration struct] *)
Record Configuration := {
  Src : string;
  Stats : string;
  Bin : string
}.

(** [type Benchmark struct] *)
Record Benchmark := {
  Name : string;
  Path : string;
  Runtime : float;
  Uncertainty : float
}.

Definition set_Runtime (b : Benchmark) (v : float) : Benchmark :=
  {| Name := Name b; Path := Path b; Runtime := v; Uncertainty := Uncertainty b |}.

Definition set_Uncertainty (b : Benchmark) (v : float) : Benchmark :=
  {| Name := Name b; Path := Path b; Runtime := Runtime b; Uncertainty := v |}.

(** [func path (elements ...string) string] *)
Definition path (elements : list string) : string :=
  match elements with
  | [] => EmptyString
  | [e] => e
  | p :: rest => fold_left (λ p e, p +:+ "/" +:+ e) rest p
  end.

(** ** [math.Pow10] *)

Module math.

(** [pow10tab] stores the pre-computed values 10**i for i < 32. *)
Definition pow10tab : list float :=
  [1e00; 1e01; 1e02; 1e03; 1e04; 1e05; 1e06; 1e07; 1e08; 1e09;
   1e10; 1e11; 1e12; 1e13; 1e14; 1e15; 1e16; 1e17; 1e18; 1e19;
   1e20; 1e21; 1e22; 1e23; 1e24; 1e25; 1e26; 1e27; 1e28; 1e29;
   1e30; 1e31]%float.

(** [pow10postab32] stores the pre-computed value for 10**(i*32) at index i. *)
Definition pow10postab32 : list float :=
  [1e00; 1e32; 1e64; 1e96; 1e128; 1e160; 1e192; 1e224; 1e256; 1e288]%float.

(** [pow10negtab32] stores the pre-computed value for 10**(-i*32) at index i. *)
Definition pow10negtab32 : list float :=
  [1e-00; 1e-32; 1e-64; 1e-96; 1e-128; 1e-160; 1e-192; 1e-224; 1e-256;
   1e-288; 1e-320]%float.

Definition index (tab : list float) (i : Z) : float := nth (Z.to_nat i) tab nan.

(** [func Pow10(n int) float64] *)
Definition Pow10 (n : Z) : float :=
  if (0 <=? n) && (n <=? 308) then
    (index pow10postab32 (n / 32) * index pow10tab (n mod 32))%float
  else if (-323 <=? n) && (n <=? 0) then
    (index pow10negtab32 (- n / 32) / index pow10tab (- n mod 32))%float
  else if 0 <? n then infinity
  else 0%float.

End math.

(** ** The [regexp] package, as far as the two patterns need it

    Go's [FindStringSubmatch] returns the leftmost match and, among the
    matches that start there, the one a backtracking matcher with greedy
    operators reaches first.  [matches[0]], the only element the program
    reads, is the matched text. *)

Module regexp.

Inductive Regexp : Type :=
| CharClass (cls : rune → bool)      (* one rune of a class, or a literal *)
| Concat (a b : Regexp)
| Quest (a : Regexp)                 (* a? *)
| Star (a : Regexp)                  (* a* *)
| Plus (a : Regexp)                  (* a+ *)
| Capture (a : Regexp).              (* ( a ) *)

Definition cont := list rune → option (list rune).

(** Greedy iteration of a sub-matcher [m].  An iteration has to consume a
    rune (the bodies iterated by the program's patterns always do), so
    [length s] iterations are enough. *)
Fixpoint iterate (m : list rune → cont → option (list rune))
    (fuel : nat) (s : list rune) (k : cont) : option (list rune) :=
  match fuel with
  | O => k s
  | S fuel' =>
      match m s (λ s', if (length s' <? length s)%nat
                       then iterate m fuel' s' k else None) with
      | Some rest => Some rest
      | None => k s
      end
  end.

(** [backtrack re s k]: match [re] at the head of [s] and hand the rest
    of the input to [k]; the first alternative that [k] accepts wins. *)
Fixpoint backtrack (re : Regexp) (s : list rune) (k : cont) : option (list rune) :=
  match re with
  | CharClass cls =>
      match s with
      | r :: s' => if cls r then k s' else None
      | [] => None
      end
  | Concat a b => backtrack a s (λ s', backtrack b s' k)
  | Quest a =>
      match backtrack a s k with
      | Some rest => Some rest
      | None => k s
      end
  | Star a => iterate (backtrack a) (length s) s k
  | Plus a => backtrack a s (λ s', iterate (backtrack a) (length s') s' k)
  | Capture a => backtrack a s k
  end.

(** The match that starts at the head of [s], if there is one. *)
Definition match_here (re : Regexp) (s : list rune) : option (list rune) :=
  match backtrack re s Some with
  | Some rest => Some (take (length s - length rest)%nat s)
  | None => None
  end.

(** [matches[0]] of [re.FindStringSubmatch(s)]; [None] for [len(matches) < 1]. *)
Fixpoint FindStringSubmatch (re : Regexp) (s : list rune) : option (list rune) :=
  match match_here re s with
  | Some m => Some m
  | None =>
      match s with
      | [] => None
      | _ :: s' => FindStringSubmatch re s'
      end
  end.

Definition lit (c : string) : Regexp :=
  CharClass (λ r, bool_decide (runes c = [r])).
Definition digit : Regexp := CharClass (λ r, (48 <=? r) && (r <=? 57)).   (* [0-9] *)
Definition space : Regexp :=                                              (* \s *)
  CharClass (λ r, bool_decide (r ∈ [9; 10; 12; 13; 32])).
Definition dot : Regexp := CharClass (λ r, negb (r =? 10)).               (* . *)

End regexp.

Import regexp.

(** [match_duration_exp = "([0-9],?)+\\s*ns"] *)
Definition match_duration_exp : Regexp :=
  Concat (Plus (Capture (Concat digit (Quest (lit ",")))))
    (Concat (Star space) (Concat (lit "n") (lit "s"))).

(** [match_uncertainty_exp = "[0-9]+.[0-9]+%"] *)
Definition match_uncertainty_exp : Regexp :=
  Concat (Plus digit) (Concat dot (Concat (Plus digit) (lit "%"))).

(** [match_exp := func (line string, exp string) (string, error)] *)
Definition match_exp (line : list rune) (exp : Regexp) : list rune * error :=
  match FindStringSubmatch exp line with
  | None => ([], Some "No match found!"%string)
  | Some m => (m, None)
  end.

(** ** The file system and the processes of the host *)

(** A file holds the runes of its text; a directory has a mode and named
    entries. *)
Inductive node : Type :=
| File (data : list rune)
| Dir (perm : Z) (entries : gmap string node).

Definition is_dir (n : node) : bool :=
  match n with Dir _ _ => true | File _ => false end.

(** What the program reads from an [os.FileInfo]. *)
Record FileInfo := {
  FileInfo_Name : string;
  FileInfo_IsDir : bool
}.

(** [*exec.Cmd]: the argument vector, which begins with the name of the
    command, and the environment.  [Path], the file that [exec.Command]
    finds for the name in the directories of [PATH], lies outside the
    working directory and is not part of the model. *)
Record Cmd := {
  Cmd_Args : list string;
  Cmd_Env : list string
}.

Definition loc := positive.

(** The state the program runs in: the directory tree below the working
    directory, the [Benchmark] structs behind the [*Benchmark] pointers,
    the processes run so far, the two output streams, and the umask and
    environment of the process. *)
Record World := {
  fs : node;
  heap : gmap loc Benchmark;
  spawned : list Cmd;
  stdout : list string;
  stderr : list string;
  umask : Z;
  environ : list string
}.

Definition with_fs (w : World) (n : node) : World :=
  {| fs := n; heap := heap w; spawned := spawned w; stdout := stdout w;
     stderr := stderr w; umask := umask w; environ := environ w |}.

Definition with_heap (w : World) (h : gmap loc Benchmark) : World :=
  {| fs := fs w; heap := h; spawned := spawned w; stdout := stdout w;
     stderr := stderr w; umask := umask w; environ := environ w |}.

Definition with_spawned (w : World) (c : list Cmd) : World :=
  {| fs := fs w; heap := heap w; spawned := c; stdout := stdout w;
     stderr := stderr w; umask := umask w; environ := environ w |}.

Definition with_stdout (w : World) (o : list string) : World :=
  {| fs := fs w; heap := heap w; spawned := spawned w; stdout := o;
     stderr := stderr w; umask := umask w; environ := environ w |}.

Definition with_stderr (w : World) (o : list string) : World :=
  {| fs := fs w; heap := heap w; spawned := spawned w; stdout := stdout w;
     stderr := o; umask := umask w; environ := environ w |}.

(** A computation on the world; [None] is a run-time panic (a nil or
    dangling [*Benchmark]). *)
Definition M (A : Type) : Type := World → option (A * World).

Definition ret {A} (a : A) : M A := λ w, Some (a, w).

Definition bind {A B} (m : M A) (f : A → M B) : M B :=
  λ w, match m w with
       | Some (a, w') => f a w'
       | None => None
       end.

Notation "'let*' x ':=' m 'in' k" := (bind m (λ x, k))
  (at level 10, x pattern, m at level 100, k at level 200,
   format "'let*'  x  ':='  m  'in' '//' k").

Definition get_world : M World := λ w, Some (w, w).

(** [*p] *)
Definition load (p : loc) : M Benchmark :=
  λ w, match heap w !! p with
       | Some b => Some (b, w)
       | None => None
       end.

(** [*p = b] *)
Definition store (p : loc) (b : Benchmark) : M unit :=
  λ w, match heap w !! p with
       | Some _ => Some (tt, with_heap w (<[p := b]> (heap w)))
       | None => None
       end.

(** [&b] for a [b] declared in the loop body: a new struct. *)
Definition alloc (b : Benchmark) : M loc :=
  λ w, let p := fresh (dom (heap w)) in
       Some (p, with_heap w (<[p := b]> (heap w))).

(** [fmt.Printf] and [fmt.Println] *)
Definition fmt_Print (s : string) : M unit :=
  λ w, Some (tt, with_stdout w (stdout w ++ [s])).

Module os.

Definition ENOENT : string := "no such file or directory".
Definition ENOTDIR : string := "not a directory".
Definition EEXIST : string := "file exists".
Definition EISDIR : string := "is a directory".

(** The [Error()] text of an [os.PathError]. *)
Definition PathError (op name msg : string) : string :=
  op +:+ " " +:+ name +:+ ": " +:+ msg.

(** [strings.Split(name, "/")] *)
Fixpoint split_slash (name : string) : list string :=
  match name with
  | EmptyString => [EmptyString]
  | String c rest =>
      if Ascii.eqb c "/" then EmptyString :: split_slash rest
      else match split_slash rest with
           | x :: xs => String c x :: xs
           | [] => [String c EmptyString]
           end
  end.

(** The entry names a path walks through: empty components and [.] stay
    where they are. *)
Definition components (name : string) : list string :=
  filter (λ c, c ≠ EmptyString ∧ c ≠ "."%string) (split_slash name).

Fixpoint walk (cs : list string) (n : node) : option node :=
  match cs with
  | [] => Some n
  | c :: cs' =>
      match n with
      | Dir _ es => es !! c ≫= walk cs'
      | File _ => None
      end
  end.

(** The node a path names, from the working directory. *)
Definition resolve (name : string) (root : node) : option node :=
  if bool_decide (name = EmptyString) then None
  else walk (components name) root.

(** The error of a walk that leads nowhere: a plain file on the way is
    not a directory, and an entry that is missing does not exist. *)
Fixpoint walk_error (cs : list string) (n : node) : string :=
  match cs with
  | [] => ENOENT
  | c :: cs' =>
      match n with
      | Dir _ es =>
          match es !! c with
          | Some child => walk_error cs' child
          | None => ENOENT
          end
      | File _ => ENOTDIR
      end
  end.

(** [os.Open(name)]: the node behind the handle, or the error. *)
Definition Open (name : string) (root : node) : option node * error :=
  match resolve name root with
  | Some n => (Some n, None)
  | None => (None, Some (PathError "open" name (walk_error (components name) root)))
  end.

Fixpoint mkdir_at (cs : list string) (new : node) (n : node) : node + string :=
  match n with
  | File _ => inr ENOTDIR
  | Dir p es =>
      match cs with
      | [] => inr EEXIST
      | [c] =>
          match es !! c with
          | Some _ => inr EEXIST
          | None => inl (Dir p (<[c := new]> es))
          end
      | c :: cs' =>
          match es !! c with
          | None => inr ENOENT
          | Some child =>
              match mkdir_at cs' new child with
              | inl child' => inl (Dir p (<[c := child']> es))
              | inr e => inr e
              end
          end
      end
  end.

(** [os.Mkdir(name, perm)]: the new directory gets [perm] without the
    bits of the umask. *)
Definition Mkdir (name : string) (perm : Z) : M error :=
  λ w,
    if bool_decide (name = EmptyString)
    then Some (Some (PathError "mkdir" name ENOENT), w)
    else match mkdir_at (components name)
                 (Dir (Z.land perm (Z.lnot (umask w))) ∅) (fs w) with
         | inl root' => Some (None, with_fs w root')
         | inr e => Some (Some (PathError "mkdir" name e), w)
         end.

End os.

Module ioutil.

Definition info (e : string * node) : FileInfo :=
  {| FileInfo_Name := e.1; FileInfo_IsDir := is_dir e.2 |}.

Definition by_name (a b : FileInfo) : Prop :=
  String.leb (FileInfo_Name a) (FileInfo_Name b) = true.

#[global] Instance by_name_dec : RelDecision by_name :=
  λ a b, decide (String.leb (FileInfo_Name a) (FileInfo_Name b) = true).

(** [ioutil.ReadDir(dirname)]: the entries of the directory, sorted by
    file name. *)
Definition ReadDir (dirname : string) (root : node) : list FileInfo * error :=
  match os.Open dirname root with
  | (Some (Dir _ es), _) => (merge_sort by_name (info <$> map_to_list es), None)
  | (Some (File _), _) => ([], Some (os.PathError "readdirent" dirname os.ENOTDIR))
  | (None, err) => ([], err)
  end.

End ioutil.

Module io.
Definition EOF : string := "EOF".
End io.

Module bufio.

(** The successive results of [reader.ReadBytes(delim)] on a file with the
    text [data]: every line with its delimiter, then what is left at the
    end of the file (possibly nothing) together with [io.EOF]. *)
Fixpoint ReadBytes (delim : rune) (data : list rune) : list (list rune * error) :=
  match data with
  | [] => [([], Some io.EOF)]
  | r :: data' =>
      if r =? delim then ([r], None) :: ReadBytes delim data'
      else match ReadBytes delim data' with
           | (line, err) :: rest => (r :: line, err) :: rest
           | [] => [([r], Some io.EOF)]
           end
  end.

(** A [bufio.Reader] on an opened node: reading a directory fails. *)
Definition NewReader (name : string) (n : node) : list (list rune * error) :=
  match n with
  | File data => ReadBytes 10 data
  | Dir _ _ => [([], Some (os.PathError "read" name os.EISDIR))]
  end.

End bufio.

Module strings.

(** [strings.HasSuffix(s, suffix)] *)
Definition HasSuffix (s suffix : string) : bool :=
  bool_decide (String.length suffix ≤ String.length s)%nat
  && String.eqb
       (substring (String.length s - String.length suffix) (String.length suffix) s)
       suffix.

End strings.

Module exec.

(** [exec.Command(name, arg...)] *)
Definition Command (name : string) (arg : list string) : Cmd :=
  {| Cmd_Args := name :: arg; Cmd_Env := [] |}.

Definition set_Env (c : Cmd) (env : list string) : Cmd :=
  {| Cmd_Args := Cmd_Args c; Cmd_Env := env |}.

End exec.

(** ** A host for the examples *)

(** The decimal digits of the Basic Multilingual Plane beyond Latin-1:
    blocks of ten code points. *)
Definition Nd_blocks : list Z :=
  [0x0660; 0x06f0; 0x07c0; 0x0966; 0x09e6; 0x0a66; 0x0ae6; 0x0b66; 0x0be6;
   0x0c66; 0x0ce6; 0x0d66; 0x0de6; 0x0e50; 0x0ed0; 0x0f20; 0x1040; 0x1090;
   0x17e0; 0x1810; 0x1946; 0x19d0; 0x1a80; 0x1a90; 0x1b50; 0x1bb0; 0x1c40;
   0x1c50; 0xa620; 0xa8d0; 0xa900; 0xa9d0; 0xa9f0; 0xaa50; 0xabf0; 0xff10].

Definition Nd (r : rune) : bool :=
  existsb (λ lo, (lo <=? r) && (r <=? lo + 9)) Nd_blocks.



(** A host without the tools: every command fails and leaves the files
    alone. *)
Definition no_tools (cmd : Cmd) (w : World) : node * error :=
  (fs w, Some "exit status 127"%string).

(** A row with the name only. *)
Definition name_row (name : string) (runtime uncertainty : float) : string :=
  name +:+ newline.

Definition add : Benchmark :=
  {| Name := "add"; Path := "src/add"; Runtime := 0; Uncertainty := 0 |}.

Definition dirs : Configuration :=
  {| Src := "src"; Stats := "stats"; Bin := "bin" |}.

(** The world with the working directory [root], the benchmark [add]
    behind pointer 1 and umask 022. *)
Definition host (root : node) : World :=
  {| fs := root; heap := {[1%positive := add]}; spawned := []; stdout := [];
     stderr := []; umask := 18; environ := ["PATH=/usr/bin"%string] |}.

(** The working directory with [stats/add.txt] holding [report]. *)
Definition with_report (report : list rune) : node :=
  Dir 493 {["stats" := Dir 493 {["add.txt" := File report]}]}.

(** A report as [perf stat] lays it out. *)
Definition perf_report : list rune :=
  runes (" Performance counter stats for 'bin/add' (10 runs):" +:+ newline
         +:+ newline
         +:+ "         1,234,567 ns   duration_time    ( +-  3.45% )" +:+ newline).

(** The two figures on two lines, in both orders. *)
Definition duration_first : list rune :=
  runes ("1,234,567 ns" +:+ newline +:+ "3.45%" +:+ newline).

Definition uncertainty_first : list rune :=
  runes ("3.45%" +:+ newline +:+ "1,234,567 ns" +:+ newline).

(** Two durations and no uncertainty. *)
Definition two_durations : list rune :=
  runes ("1 ns" +:+ newline +:+ "2 ns" +:+ newline).

(** A source tree whose benchmark has a text file and a directory named
    like a C file, and a binaries directory with a directory [add]. *)
Definition tree : node :=
  Dir 493
    {[ "src" := Dir 493
         {[ "add" := Dir 493 {[ "README.md" := File []; "old.c" := Dir 493 ∅ ]};
            "notes.txt" := File [] ]};
       "bin" := Dir 493 {[ "add" := Dir 493 ∅ ]};
       "stats" := Dir 493 {[ "add.txt" := File perf_report ]} ]}.

(** [add] with the figures of [perf_report], and with its runtime only. *)
Definition measured : Benchmark :=
  {| Name := "add"; Path := "src/add"; Runtime := 1234567;
     Uncertainty := 0x1.b99999999999ap+1 |}.

Definition timed : Benchmark :=
  {| Name := "add"; Path := "src/add"; Runtime := 1234567; Uncertainty := 0 |}.

(** A source tree with two C files, a text file and a directory named
    like a C file; nothing compiled or measured yet. *)
Definition c_tree : node :=
  Dir 493
    {[ "src" := Dir 493
         {[ "add" := Dir 493 {[ "util.c" := File []; "add.c" := File [];
                                "README.md" := File [];
                                "old.c" := Dir 493 ∅ ]} ]};
       "bin" := Dir 493 ∅;
       "stats" := Dir 493 ∅ ]}.

(** A report with a duration of its own ahead of the line of [perf]. *)
Definition stale_report : list rune :=
  runes ("elapsed 7 ns" +:+ newline
         +:+ "         1,234,567 ns   duration_time    ( +-  3.45% )" +:+ newline).

(** The directories of [main] with the benchmark [add], and a world on
    it without structs: once with the report of [add] and once without
    report and without a C file. *)
Definition sequential (add_dir : node) : node :=
  Dir 493 {[ "bench" := Dir 493 {[ "sequential" := Dir 493 {[ "add" := add_dir ]} ]} ]}.

Definition bare (root : node) : World :=
  {| fs := root; heap := ∅; spawned := []; stdout := []; stderr := [];
     umask := 18; environ := [] |}.

Definition cached_root : node :=
  Dir 493
    {[ "tacle-bench" := sequential (Dir 493 {[ "add.c" := File [] ]});
       "stats" := Dir 493 {[ "add.txt" := File perf_report ]};
       "bin" := Dir 493 ∅ ]}.

Definition empty_root : node :=
  Dir 493 {[ "tacle-bench" := sequential (Dir 493 ∅) ]}.

(** A source root with three benchmarks and a plain file. *)
Definition suite : node :=
  Dir 493
    {[ "src" := Dir 493
         {[ "md5" := Dir 493 {[ "md5.c" := File [] ]};
            "add" := Dir 493 ∅;
            "fft" := Dir 493 {[ "old" := Dir 493 ∅ ]};
            "notes.txt" := File [] ]};
       "stats" := Dir 493 {[ "add.txt" := File perf_report ]} ]}.

Definition fft : Benchmark :=
  {| Name := "fft"; Path := "src/fft"; Runtime := 0; Uncertainty := 0 |}.

Definition md5 : Benchmark :=
  {| Name := "md5"; Path := "src/md5"; Runtime := 0; Uncertainty := 0 |}.

(** [add] with figures of an earlier run. *)
Definition earlier : Benchmark :=
  {| Name := "add"; Path := "src/add"; Runtime := 5; Uncertainty := 7 |}.

(** The argument that follows [-o]. *)
Fixpoint output_of (args : list string) : option string :=
  match args with
  | [] => None
  | a :: rest => if String.eqb a "-o" then head rest else output_of rest
  end.

(** The tree with [new] at the place that [cs] leads to. *)
Fixpoint put (cs : list string) (new : node) (n : node) : node :=
  match cs with
  | [] => new
  | c :: cs' =>
      match n with
      | Dir p es =>
          Dir p (<[c := put cs' new (default (Dir 493 ∅) (es !! c))]> es)
      | File _ => n
      end
  end.

(** A host with the tools: a command leaves a file at the path that
    follows its [-o], [sudo ... perf stat] the report [perf_report] and
    the compiler an executable. *)
Definition toolchain (cmd : Cmd) (w : World) : node * error :=
  match output_of (Cmd_Args cmd) with
  | Some out =>
      (put (os.components out)
         (File (if bool_decide (head (Cmd_Args cmd) = Some "sudo"%string)
                then perf_report else []))
         (fs w),
       None)
  | None => (fs w, Some "exit status 2"%string)
  end.

(** The command that compiles [add] in [c_tree], and the one that
    measures it. *)
Definition cc_add : Cmd :=
  {| Cmd_Args := ["cc"; "-o"; "bin/add"; "src/add/add.c"; "src/add/util.c"];
     Cmd_Env := ["PATH=/usr/bin"] |}%string.

Definition perf_add : Cmd :=
  {| Cmd_Args := ["sudo"; "chrt"; "-f"; "99"; "perf"; "stat"; "-o";
                  "stats/add.txt"; "-e"; "duration_time"; "--repeat=10";
                  "bin/add"];
     Cmd_Env := ["PATH=/usr/bin"] |}%string.

(** The world after the evaluation of [add] on [c_tree] with
    [toolchain]: the executable and the report are there. *)
Definition after_build : World :=
  {| fs :=
       Dir 493
         {[ "src" := Dir 493
              {[ "add" := Dir 493 {[ "util.c" := File []; "add.c" := File [];
                                     "README.md" := File [];
                                     "old.c" := Dir 493 ∅ ]} ]};
            "bin" := Dir 493 {[ "add" := File [] ]};
            "stats" := Dir 493 {[ "add.txt" := File perf_report ]} ]};
     heap := {[1%positive := measured]};
     spawned := [cc_add; perf_add];
     stdout := ["Compiling benchmark " +:+ dquote +:+ "add" +:+ dquote
                  +:+ "..." +:+ newline;
                "- Success" +:+ newline;
                "Evaluating benchmark " +:+ dquote +:+ "add" +:+ dquote
                  +:+ "..." +:+ newline;
                "- Success" +:+ newline];
     stderr := []; umask := 18; environ := ["PATH=/usr/bin"%string] |}.

(** The world after the evaluation of [add] on [c_tree] with [no_tools]:
    the compiler was run and failed. *)
Definition after_failed_build : World :=
  {| fs := c_tree; heap := {[1%positive := add]};
     spawned := [cc_add];
     stdout := ["Compiling benchmark " +:+ dquote +:+ "add" +:+ dquote
                  +:+ "..." +:+ newline];
     stderr := []; umask := 18; environ := ["PATH=/usr/bin"%string] |}.

(** What an example looks at: the result of a computation and the
    struct behind a pointer afterwards. *)
Definition struct_after {A} (r : option (A * World)) (p : loc)
    : option (A * option Benchmark) :=
  (λ aw, (aw.1, heap aw.2 !! p)) <$> r.

(** ** The package *)

Section Benchmark.

(** [unicode.Digit] outside Latin-1: the range table of the decimal
    digits of the Unicode version in use. *)
Variable Digit : rune → bool.

(** What running a command does to the directory tree, and the error
    that [cmd.Run()] returns. *)
Variable run_process : Cmd → World → node * error.

(** [fmt.Sprintf] of the row that [main] prints for a benchmark. *)
Variable Sprintf_row : string → float → float → string.

(** [unicode.IsDigit] *)
Definition IsDigit (r : rune) : bool :=
  if r <=? 255 then (48 <=? r) && (r <=? 57) else Digit r.

(** [cmd.Run()] *)
Definition Run (cmd : Cmd) : M error :=
  λ w, let '(root', err) := run_process cmd w in
       Some (err, with_spawned (with_fs w root') (spawned w ++ [cmd])).

(** The loop of [directory_contains_file]. *)
Fixpoint contains_name (name : string) (files : list FileInfo) : bool :=
  match files with
  | [] => false
  | f :: files' =>
      if bool_decide (FileInfo_Name f = name) then true
      else contains_name name files'
  end.

(** [func directory_contains_file (name, directory string) (bool, error)] *)
Definition directory_contains_file (name directory : string) (root : node)
    : bool * error :=
  let '(files, err) := ioutil.ReadDir directory root in
  match err with
  | Some e => (false, Some e)
  | None => (contains_name name files, None)
  end.

(** [func get_files_by_suffix (directory, suffix string) ([]string, error)] *)
Definition get_files_by_suffix (directory suffix : string) (root : node)
    : list string * error :=
  let bag : list string := [] in
  let '(files, err) := ioutil.ReadDir directory root in
  match err with
  | Some e =>
      (bag, Some ("Unable to read directory " +:+ dquote +:+ directory +:+ dquote
                  +:+ ", reason: " +:+ e))
  | None =>
      (fold_left
         (λ bag file,
            if FileInfo_IsDir file then bag
            else if strings.HasSuffix (FileInfo_Name file) suffix
                 then bag ++ [directory +:+ "/" +:+ FileInfo_Name file]
                 else bag)
         files bag, None)
  end.

(** [func get_compile_command (compiler, name, src_dir, bin_dir string) ( *exec.Cmd, error)] *)
Definition get_compile_command (compiler name src_dir bin_dir : string)
    (root : node) : option Cmd * error :=
  let args : list string := [] in
  let executable_file_path := path [bin_dir; name] in
  let args := args ++ ["-o"%string] in
  let args := args ++ [executable_file_path] in
  let '(source_files, err) := get_files_by_suffix src_dir ".c" root in
  match err with
  | Some e => (None, Some e)
  | None =>
      let args := args ++ source_files in
      if bool_decide (length source_files = 0%nat)
      then (None, Some "No source files found to compile"%string)
      else (Some (exec.Command compiler args), None)
  end.

(** [func compile_benchmark (cfg Configuration, benchmark *Benchmark, compiler string) error] *)
Definition compile_benchmark (cfg : Configuration) (benchmark : loc)
    (compiler : string) : M error :=
  let* b := load benchmark in
  let* w := get_world in
  match get_compile_command compiler (Name b) (Path b) (Bin cfg) (fs w) with
  | (_, Some e) => ret (Some e)
  | (None, None) => λ _, None
  | (Some cmd, None) => Run (exec.set_Env cmd (environ w))
  end.

(** [func evaluate_benchmark (benchmark *Benchmark, cfg Configuration, repeats int) error] *)
Definition evaluate_benchmark (benchmark : loc) (cfg : Configuration)
    (repeats : Z) : M error :=
  let* b := load benchmark in
  let output_file_name := Name b +:+ ".txt" in
  let output_file_path := path [Stats cfg; output_file_name] in
  let args : list string :=
    ["chrt"; "-f"; "99"; "perf"; "stat"; "-o"; output_file_path; "-e";
     "duration_time"]%string in
  let* w := get_world in
  match directory_contains_file (Name b) (Bin cfg) (fs w) with
  | (_, Some e) =>
      ret (Some ("Unable to search directory " +:+ dquote +:+ Bin cfg +:+ dquote
                 +:+ ": " +:+ e))
  | (false, None) =>
      ret (Some ("Executable " +:+ dquote +:+ Name b +:+ dquote
                 +:+ " not found in " +:+ Bin cfg))
  | (true, None) =>
      let args := args ++ ["--repeat=" +:+ pretty repeats] in
      let args := args ++ [path [Bin cfg; Name b]] in
      let cmd := exec.Command "sudo" args in
      Run (exec.set_Env cmd (environ w))
  end.

(** The state of the first loop of [get_float]. *)
Record digits := {
  filtered : list rune;
  found_decimal : bool;
  decimal_offset : Z
}.

(** Body of [for _, r := range runes]. *)
Definition filter_rune (st : digits) (r : rune) : digits :=
  if IsDigit r then
    {| filtered := filtered st ++ [r];
       found_decimal := found_decimal st;
       decimal_offset :=
         if found_decimal st then decimal_offset st + 1 else decimal_offset st |}
  else if r =? 46 then
    {| filtered := filtered st; found_decimal := true;
       decimal_offset := decimal_offset st |}
  else st.

(** [float64(byte(d - '0'))] *)
Definition float64_byte (d : rune) : float :=
  PrimFloat.of_uint63 (Uint63.of_Z (Z.land (d - 48) 255)).

(** Body of [for _, d := range filtered]. *)
Definition assemble (value : float) (d : rune) : float :=
  (value * 10 + float64_byte d)%float.

(** [get_float := func (match string) float64] *)
Definition get_float (match_ : list rune) : float :=
  let value : float := 0%float in
  let st :=
    fold_left filter_rune match_
      {| filtered := []; found_decimal := false; decimal_offset := 0 |} in
  let value := fold_left assemble (filtered st) value in
  (value / math.Pow10 (decimal_offset st))%float.

(** The [for reader := bufio.NewReader(file); more; { ... }] loop of
    [get_benchmark_results], on the struct behind [benchmark].  The third
    component is the error of a [return err] inside the loop. *)
Fixpoint read_lines (reader : list (list rune * error)) (b : Benchmark)
    (found_params : Z) : Benchmark * Z * error :=
  match reader with
  | [] => (b, found_params, None)
  | (line, err) :: reader' =>
      let more := negb (bool_decide (err = Some io.EOF)) in
      let err := if bool_decide (err = Some io.EOF) then None else err in
      let continue (b : Benchmark) (found_params : Z) :=
        if more then read_lines reader' b found_params
        else (b, found_params, None) in
      match err with
      | Some e => (b, found_params, Some e)
      | None =>
          match match_exp line match_duration_exp with
          | (_, Some _) => continue b found_params
          | (match_, None) =>
              let b := set_Runtime b (get_float match_) in
              let found_params := found_params + 1 in
              match match_exp line match_uncertainty_exp with
              | (_, Some _) => continue b found_params
              | (match_, None) =>
                  let b := set_Uncertainty b (get_float match_) in
                  let found_params := found_params + 1 in
                  if 2 <=? found_params then (b, found_params, None)
                  else continue b found_params
              end
          end
      end
  end.

(** [func get_benchmark_results (cfg Configuration, benchmark *Benchmark) error] *)
Definition get_benchmark_results (cfg : Configuration) (benchmark : loc) : M error :=
  let* b := load benchmark in
  let results_file_path := path [Stats cfg; Name b +:+ ".txt"] in
  let* w := get_world in
  match os.Open results_file_path (fs w) with
  | (_, Some e) => ret (Some e)
  | (None, None) => λ _, None
  | (Some file, None) =>
      let '(b', found_params, err) :=
        read_lines (bufio.NewReader results_file_path file) b 0 in
      let* _ := store benchmark b' in
      match err with
      | Some e => ret (Some e)
      | None =>
          if negb (found_params =? 2)
          then ret (Some "Unable to locate runtime and/or uncertainty!"%string)
          else ret None
      end
  end.

(** [make_if_needed := func (name string) error] *)
Definition make_if_needed (name : string) : M error :=
  let* w := get_world in
  match directory_contains_file name "." (fs w) with
  | (_, Some e) => ret (Some e)
  | (exists_, None) =>
      if negb exists_ then os.Mkdir name 511 else ret None
  end.

(** [func make_directories (directories []string) error] *)
Fixpoint make_directories (directories : list string) : M error :=
  match directories with
  | [] => ret None
  | d :: directories' =>
      let* err := make_if_needed d in
      match err with
      | Some e => ret (Some e)
      | None => make_directories directories'
      end
  end.

(** [func Init_Env (cfg Configuration) error] *)
Definition Init_Env (cfg : Configuration) : M error :=
  make_directories [Stats cfg; Bin cfg].

(** Body of the loop of [Init_Benchmarks]. *)
Fixpoint Init_Benchmarks_range (cfg : Configuration) (files : list FileInfo)
    (benchmarks : list loc) : M (list loc) :=
  match files with
  | [] => ret benchmarks
  | file :: files' =>
      if negb (FileInfo_IsDir file) then Init_Benchmarks_range cfg files' benchmarks
      else
        let n := FileInfo_Name file in
        let b := {| Name := n; Path := path [Src cfg; n];
                    Runtime := 0%float; Uncertainty := 0%float |} in
        let* p := alloc b in
        Init_Benchmarks_range cfg files' (benchmarks ++ [p])
  end.

(** [func Init_Benchmarks (cfg Configuration) ([]*Benchmark, error)] *)
Definition Init_Benchmarks (cfg : Configuration) : M (list loc * error) :=
  let benchmarks : list loc := [] in
  let* w := get_world in
  match ioutil.ReadDir (Src cfg) (fs w) with
  | (_, Some e) => ret (benchmarks, Some e)
  | (files, None) =>
      let* benchmarks := Init_Benchmarks_range cfg files benchmarks in
      ret (benchmarks, None)
  end.

(** Body of the loop of [Get_Unevaluated_Benchmarks]. *)
Fixpoint Get_Unevaluated_range (cfg : Configuration) (benchmarks : list loc)
    (unevaluated_benchmarks : list loc) : M (list loc * error) :=
  match benchmarks with
  | [] => ret (unevaluated_benchmarks, None)
  | p :: benchmarks' =>
      let* b := load p in
      let results_file_name := Name b +:+ ".txt" in
      let* w := get_world in
      match directory_contains_file results_file_name (Stats cfg) (fs w) with
      | (_, Some e) =>
          ret (unevaluated_benchmarks,
               Some ("Problem opening results directory: " +:+ e))
      | (false, None) =>
          Get_Unevaluated_range cfg benchmarks' (unevaluated_benchmarks ++ [p])
      | (true, None) =>
          let* err := get_benchmark_results cfg p in
          match err with
          | Some e =>
              ret (unevaluated_benchmarks, Some ("Unable to read results: " +:+ e))
          | None => Get_Unevaluated_range cfg benchmarks' unevaluated_benchmarks
          end
      end
  end.

(** [func Get_Unevaluated_Benchmarks (cfg Configuration, benchmarks []*Benchmark) ([]*Benchmark, error)] *)
Definition Get_Unevaluated_Benchmarks (cfg : Configuration)
    (benchmarks : list loc) : M (list loc * error) :=
  Get_Unevaluated_range cfg benchmarks [].

(** [func Evaluate_Benchmark (compiler string, cfg Configuration, repeats int, benchmark *Benchmark) error] *)
Definition Evaluate_Benchmark (compiler : string) (cfg : Configuration)
    (repeats : Z) (benchmark : loc) : M error :=
  let* b := load benchmark in
  let* w := get_world in
  match directory_contains_file (Name b) (Bin cfg) (fs w) with
  | (_, Some e) =>
      ret (Some ("Unable to search " +:+ dquote +:+ Bin cfg +:+ dquote +:+ ": " +:+ e))
  | (was_compiled, None) =>
      let* err :=
        if negb was_compiled then
          let* _ := fmt_Print ("Compiling benchmark " +:+ dquote +:+ Name b +:+ dquote
                           +:+ "..." +:+ newline) in
          compile_benchmark cfg benchmark compiler
        else ret None in
      match err with
      | Some e => ret (Some ("Problem compiling benchmark: " +:+ e))
      | None =>
          let* _ := fmt_Print ("- Success" +:+ newline) in
          let* _ := fmt_Print ("Evaluating benchmark " +:+ dquote +:+ Name b +:+ dquote
                           +:+ "..." +:+ newline) in
          let* err := evaluate_benchmark benchmark cfg repeats in
          match err with
          | Some e => ret (Some ("Problem evaluating benchmark: " +:+ e))
          | None =>
              let* _ := fmt_Print ("- Success" +:+ newline) in
              let* err := get_benchmark_results cfg benchmark in
              match err with
              | Some e =>
                  ret (Some ("Unable to read results for " +:+ Name b +:+ ": " +:+ e))
              | None => ret None
              end
          end
      end
  end.

(** [log.Fatal(msg)]: the message goes to the standard error stream and
    the process exits with status 1. *)
Definition log_Fatal (msg : string) : M Z :=
  λ w, Some (1, with_stderr w (stderr w ++ [msg])).

(** The loop of [main] that evaluates the unevaluated benchmarks; an
    error ends the loop and the run. *)
Fixpoint main_evaluate (cfg : Configuration) (unevaluated : list loc) : M error :=
  match unevaluated with
  | [] => ret None
  | b :: unevaluated' =>
      let* err := Evaluate_Benchmark "cc" cfg 10 b in
      match err with
      | Some e => ret (Some e)
      | None => main_evaluate cfg unevaluated'
      end
  end.

(** The loop of [main] that prints the benchmarks. *)
Fixpoint main_print (benchmarks : list loc) : M unit :=
  match benchmarks with
  | [] => ret tt
  | p :: benchmarks' =>
      let* b := load p in
      let* _ := fmt_Print (Sprintf_row (Name b) (Runtime b) (Uncertainty b)) in
      main_print benchmarks'
  end.

(** [func main ()], with the exit status of the process as its result. *)
Definition main : M Z :=
  let cfg := {| Src := "tacle-bench/bench/sequential"; Stats := "stats";
                Bin := "bin" |} in
  let* err := Init_Env cfg in
  match err with
  | Some e => log_Fatal e
  | None =>
      let* (benchmarks, err) := Init_Benchmarks cfg in
      match err with
      | Some e => log_Fatal e
      | None =>
          let* (unevaluated, err) := Get_Unevaluated_Benchmarks cfg benchmarks in
          match err with
          | Some e => log_Fatal e
          | None =>
              let* err := main_evaluate cfg unevaluated in
              match err with
              | Some e => log_Fatal e
              | None =>
                  let* _ := main_print benchmarks in
                  ret 0
              end
          end
      end
  end.

(** ** The numeric conversion *)

(** The two loops of [get_float] as a filter and a fold, for the proofs:
    the number of runes that [IsDigit] accepts after the first decimal
    point, and the fold of the body of the second loop over the runes
    that [IsDigit] accepts. *)
Fixpoint digits_after_point (s : list rune) : Z :=
  match s with
  | [] => 0
  | r :: s' =>
      if IsDigit r then digits_after_point s'
      else if r =? 46 then Z.of_nat (length (filter (λ d, IsDigit d = true) s'))
      else digits_after_point s'
  end.

Definition get_float_folded (s : list rune) : float :=
  (fold_left (λ value d, value * 10 + float64_byte d)
     (filter (λ d, IsDigit d = true) s) 0
   / math.Pow10 (digits_after_point s))%float.




(** ** The report, line by line *)

(** The errors of the specification's taxonomy, as the messages the
    package gives them. *)
Definition IncompleteReport : string :=
  "Unable to locate runtime and/or uncertainty!".
Definition NoSourceFiles : string := "No source files found to compile".
Definition ExecutableNotFound (name dir : string) : string :=
  "Executable " +:+ dquote +:+ name +:+ dquote +:+ " not found in " +:+ dir.

(** The lines of a report, as [ReadBytes] hands them to the loop. *)
Definition file_lines (data : list rune) : list (list rune) :=
  (bufio.ReadBytes 10 data).*1.

Definition has_duration (line : list rune) : bool :=
  bool_decide ((match_exp line match_duration_exp).2 = None).

Definition has_uncertainty (line : list rune) : bool :=
  bool_decide ((match_exp line match_uncertainty_exp).2 = None).

(** A reader that gives [lines] without an error and then [last] with
    [io.EOF]. *)
Definition reader_of (lines : list (list rune)) (last : list rune)
    : list (list rune * error) :=
  ((λ l, (l, None)) <$> lines) ++ [(last, Some io.EOF)].

(** What a line with a duration and without an uncertainty does to the
    struct. *)
Definition take_duration (b : Benchmark) (line : list rune) : Benchmark :=
  match match_exp line match_duration_exp with
  | (m, None) => set_Runtime b (get_float m)
  | (_, Some _) => b
  end.

(** The fields a run of the loop assigns, if it assigns them. *)
Definition overwrite (r u : option float) (b : Benchmark) : Benchmark :=
  {| Name := Name b; Path := Path b;
     Runtime := default (Runtime b) r;
     Uncertainty := default (Uncertainty b) u |}.

(** ** Paths, commands and directories in the statements *)

(** The report path of a benchmark. *)
Definition report_path (cfg : Configuration) (b : Benchmark) : string :=
  path [Stats cfg; Name b +:+ ".txt"].

(** The measurement command of a benchmark. *)
Definition perf_command (cfg : Configuration) (b : Benchmark) (repeats : Z)
    (env : list string) : Cmd :=
  exec.set_Env
    (exec.Command "sudo"
       ["chrt"; "-f"; "99"; "perf"; "stat"; "-o"; report_path cfg b; "-e";
        "duration_time"; "--repeat=" +:+ pretty repeats;
        path [Bin cfg; Name b]]%string)
    env.

(** The compile command of a benchmark for its source files. *)
Definition compile_command (cfg : Configuration) (b : Benchmark)
    (compiler : string) (sources : list string) (env : list string) : Cmd :=
  {| Cmd_Args := compiler :: "-o" :: (Bin cfg +:+ "/" +:+ Name b) :: sources;
     Cmd_Env := env |}.

(** The entry of a name in a directory. *)
Definition entry (name : string) (n : node) : option node :=
  match n with
  | Dir _ es => es !! name
  | File _ => None
  end.

(** The struct that discovery makes for a sub-directory. *)
Definition discovered (cfg : Configuration) (name : string) : Benchmark :=
  {| Name := name; Path := Src cfg +:+ "/" +:+ name;
     Runtime := 0%float; Uncertainty := 0%float |}.

(** A benchmark needs evaluation when the results directory [es] has no
    entry for its report. *)
Definition needs_evaluation (es : gmap string node) (h : gmap loc Benchmark)
    (p : loc) : bool :=
  match h !! p with
  | Some b => negb (bool_decide (is_Some (es !! (Name b +:+ ".txt"))))
  | None => false
  end.

(** The struct behind [q] in [h] is what the loop of
    [get_benchmark_results] made of the struct it was in [h0], from the
    report in the results directory and with a count of 2 at its end.
    (The count is 2 after a line with both figures, and also after two
    lines with a duration each.) *)
Definition read_at (cfg : Configuration) (root : node)
    (es : gmap string node) (h0 h : gmap loc Benchmark) (q : loc) : Prop :=
  ∃ b file b',
    h0 !! q = Some b
    ∧ is_Some (es !! (Name b +:+ ".txt"))
    ∧ os.Open (report_path cfg b) root = (Some file, None)
    ∧ read_lines (bufio.NewReader (report_path cfg b) file) b 0 = (b', 2, None)
    ∧ h !! q = Some b'.

(** The mode of a directory that [Init_Env] creates. *)
Definition created_mode (w : World) : Z := Z.land 511 (Z.lnot (umask w)).

(** From [w] to [w'] the directory [d] has been created and nothing else
    has happened: [d] led nowhere and now leads to an empty directory with
    the mode of a created one, every directory that was there is in its
    place with its mode, and a walk that does not lead towards [d] finds
    what it found before. *)
Definition created (d : string) (w w' : World) : Prop :=
  w' = with_fs w (fs w')
  ∧ os.resolve d (fs w) = None
  ∧ os.resolve d (fs w') = Some (Dir (created_mode w) ∅)
  ∧ (∀ ds, ¬ ds `prefix_of` os.components d →
           os.walk ds (fs w') = os.walk ds (fs w))
  ∧ (∀ ds q es, os.walk ds (fs w) = Some (Dir q es) →
                ∃ es', os.walk ds (fs w') = Some (Dir q es')).

(** What [Init_Env] does for one of its names, from [w] to [w']: a name
    that is an entry of the working directory is left as it is, and with
    it everything else; any other name is created. *)
Definition in_place (d : string) (w w' : World) : Prop :=
  match entry d (fs w) with
  | Some _ => w' = w
  | None => created d w w'
  end.

(** A plain file is as it was; a directory has its mode and may have
    got a new directory somewhere below it. *)
Definition kept (n n' : node) : Prop :=
  match n with
  | File data => n' = File data
  | Dir q _ => ∃ es', n' = Dir q es'
  end.

(** The name [d] in the world [w'] after [Init_Env] ran in [w]: what was
    an entry of the working directory still is that entry, kept; any
    other name is the path of a directory with the mode of a created
    one. *)
Definition present (d : string) (w w' : World) : Prop :=
  match entry d (fs w) with
  | Some n => ∃ n', entry d (fs w') = Some n' ∧ kept n n'
  | None => ∃ es, os.resolve d (fs w') = Some (Dir (created_mode w) es)
  end.

(** The configuration of [main]. *)
Definition main_cfg : Configuration :=
  {| Src := "tacle-bench/bench/sequential"; Stats := "stats"; Bin := "bin" |}.

(** A file name: no path separator in it. *)
Fixpoint no_slash (s : string) : bool :=
  match s with
  | EmptyString => true
  | String c rest => negb (Ascii.eqb c "/") && no_slash rest
  end.

(** Every struct of [h] is as it was in [h0] or read from its report. *)
Definition tracked (cfg : Configuration) (root : node)
    (es : gmap string node) (h0 h : gmap loc Benchmark) : Prop :=
  ∀ q, h !! q = h0 !! q ∨ read_at cfg root es h0 h q.

(** The order of a directory listing. *)
Definition name_le (a b : string) : Prop := String.leb a b = true.

(** The path of the entry [name] of [directory]. *)
Definition in_directory (directory name : string) : string :=
  directory +:+ "/" +:+ name.

(** A name that is an entry name: not empty, not [.], no separator. *)
Definition file_name (d : string) : Prop :=
  no_slash d = true ∧ d ≠ EmptyString ∧ d ≠ "."%string.

(** The rows that [main] prints for the benchmarks behind [ptrs]. *)
Definition rows (h : gmap loc Benchmark) (ptrs : list loc) : list string :=
  omap (λ p, (λ b, Sprintf_row (Name b) (Runtime b) (Uncertainty b)) <$> h !! p)
       ptrs.

(** The line that announces a compilation. *)
Definition compiling_line (b : Benchmark) : string :=
  "Compiling benchmark " +:+ dquote +:+ Name b +:+ dquote +:+ "..." +:+ newline.

(** ** What a pattern matches *)

(** The texts of a pattern, without the order of preference. *)
Inductive matches : Regexp → list rune → Prop :=
| matches_class cls r :
    cls r = true → matches (CharClass cls) [r]
| matches_concat a b u v :
    matches a u → matches b v → matches (Concat a b) (u ++ v)
| matches_quest_none a : matches (Quest a) []
| matches_quest_some a u : matches a u → matches (Quest a) u
| matches_star_nil a : matches (Star a) []
| matches_star_cons a u v :
    matches a u → matches (Star a) v → matches (Star a) (u ++ v)
| matches_plus a u v :
    matches a u → matches (Star a) v → matches (Plus a) (u ++ v)
| matches_capture a u : matches a u → matches (Capture a) u.

Definition ascii_digit (r : rune) : Prop := 48 ≤ r ≤ 57.

#[global] Instance ascii_digit_dec (r : rune) : Decision (ascii_digit r) :=
  and_dec (Z.le_dec 48 r) (Z.le_dec r 57).

(** The runes a duration match is made of before its unit. *)
Definition duration_rune (r : rune) : Prop :=
  ascii_digit r ∨ r = 44 ∨ r ∈ [9; 10; 12; 13; 32].

(** * Properties *)

(** ** [get_float] *)

Lemma filter_rune_fold (s : list rune) (st : digits) :
  fold_left filter_rune s st =
  {| filtered := filtered st ++ filter (λ d, IsDigit d = true) s;
     found_decimal :=
       found_decimal st || existsb (λ r, negb (IsDigit r) && (r =? 46)) s;
     decimal_offset :=
       decimal_offset st +
       (if found_decimal st
        then Z.of_nat (length (filter (λ d, IsDigit d = true) s))
        else digits_after_point s) |}.
Proof.
  revert st. induction s as [|r s IH]; intros [f fd off]; simpl.
  - rewrite app_nil_r, orb_false_r.
    f_equal. destruct fd; simpl; lia.
  - rewrite IH. unfold filter_rune. simpl.
    rewrite filter_cons.
    destruct (IsDigit r) eqn:Hd; simpl.
    + rewrite <- app_assoc. simpl.
      destruct fd; simpl; f_equal; lia.
    + destruct (r =? 46) eqn:Hp; simpl.
      * f_equal; [by rewrite orb_true_r | by destruct fd].
      * done.
Qed.



Lemma get_float_fold (s : list rune) : get_float s = get_float_folded s.
Proof.
  unfold get_float, get_float_folded. rewrite filter_rune_fold. simpl.
  reflexivity.
Qed.









(** ** The loop over the lines of a report *)

(** [ReadBytes] hands out a line up to and with its first delimiter, and
    at the end of the file what is left, with [io.EOF]. *)
Lemma ReadBytes_line (line rest : list rune) :
  10 ∉ line →
  bufio.ReadBytes 10 (line ++ 10 :: rest)
  = (line ++ [10], None) :: bufio.ReadBytes 10 rest.
Proof.
  induction line as [|r line IH]; intros Hnot; simpl; [done|].
  apply not_elem_of_cons in Hnot as [Hr Hline].
  destruct (Z.eqb_spec r 10) as [-> | _]; [done|].
  by rewrite IH.
Qed.

Lemma ReadBytes_last (last : list rune) :
  10 ∉ last → bufio.ReadBytes 10 last = [(last, Some io.EOF)].
Proof.
  induction last as [|r last IH]; intros Hnot; simpl; [done|].
  apply not_elem_of_cons in Hnot as [Hr Hlast].
  destruct (Z.eqb_spec r 10) as [-> | _]; [done|].
  by rewrite IH.
Qed.

Lemma ReadBytes_reader_of (data : list rune) :
  ∃ lines last, bufio.ReadBytes 10 data = reader_of lines last.
Proof.
  induction data as [|r data (lines & last & IH)]; simpl.
  - by exists [], [].
  - destruct (r =? 10).
    + exists ([r] :: lines), last. by rewrite IH.
    + rewrite IH. destruct lines as [|l lines]; simpl.
      * by exists [], (r :: last).
      * by exists ((r :: l) :: lines), last.
Qed.

Lemma reader_of_lines (lines : list (list rune)) (last : list rune) :
  (reader_of lines last).*1 = lines ++ [last].
Proof.
  unfold reader_of. rewrite fmap_app, <- list_fmap_compose. simpl.
  by rewrite list_fmap_id.
Qed.

Lemma has_duration_false (line : list rune) :
  has_duration line = false →
  ∃ m e, match_exp line match_duration_exp = (m, Some e).
Proof.
  unfold has_duration. intros H%bool_decide_eq_false.
  destruct (match_exp line match_duration_exp) as [m [e|]]; [eauto | done].
Qed.

Lemma has_uncertainty_false (line : list rune) :
  has_uncertainty line = false →
  ∃ m e, match_exp line match_uncertainty_exp = (m, Some e).
Proof.
  unfold has_uncertainty. intros H%bool_decide_eq_false.
  destruct (match_exp line match_uncertainty_exp) as [m [e|]]; [eauto | done].
Qed.

(** A line without a duration is skipped. *)
Lemma read_lines_skip (line : list rune) reader b found :
  has_duration line = false →
  read_lines ((line, None) :: reader) b found = read_lines reader b found.
Proof.
  intros (m & e & Hm)%has_duration_false. simpl. by rewrite Hm.
Qed.

Lemma read_lines_skip_eof (line : list rune) reader b found :
  has_duration line = false →
  read_lines ((line, Some io.EOF) :: reader) b found = (b, found, None).
Proof.
  intros (m & e & Hm)%has_duration_false. simpl. by rewrite Hm.
Qed.

Lemma read_lines_skip_all (pre : list (list rune)) reader b found :
  Forall (λ l, has_duration l = false) pre →
  read_lines (((λ l, (l, None)) <$> pre) ++ reader) b found
  = read_lines reader b found.
Proof.
  induction 1 as [|l pre Hl _ IH]; [done|].
  rewrite fmap_cons. simpl app. by rewrite read_lines_skip.
Qed.

(** A line with both figures ends the loop. *)
Lemma read_lines_both (line : list rune) err reader b found md mu :
  err = None ∨ err = Some io.EOF →
  match_exp line match_duration_exp = (md, None) →
  match_exp line match_uncertainty_exp = (mu, None) →
  0 ≤ found →
  read_lines ((line, err) :: reader) b found
  = (set_Uncertainty (set_Runtime b (get_float md)) (get_float mu),
     found + 1 + 1, None).
Proof.
  intros Herr Hd Hu Hf.
  assert ((2 <=? found + 1 + 1) = true) as H2 by (apply Z.leb_le; lia).
  destruct Herr as [-> | ->]; simpl; by rewrite Hd, Hu, H2.
Qed.

(** A line with a duration only is counted once and the loop goes on. *)
Lemma read_lines_duration (line : list rune) reader b found :
  has_duration line = true →
  has_uncertainty line = false →
  read_lines ((line, None) :: reader) b found
  = read_lines reader (take_duration b line) (found + 1).
Proof.
  unfold has_duration, take_duration.
  intros Hd%bool_decide_eq_true (m & e & Hu)%has_uncertainty_false. simpl.
  destruct (match_exp line match_duration_exp) as [md [?|]]; [done|].
  by rewrite Hu.
Qed.

Lemma read_lines_duration_eof (line : list rune) reader b found :
  has_duration line = true →
  has_uncertainty line = false →
  read_lines ((line, Some io.EOF) :: reader) b found
  = (take_duration b line, found + 1, None).
Proof.
  unfold has_duration, take_duration.
  intros Hd%bool_decide_eq_true (m & e & Hu)%has_uncertainty_false. simpl.
  destruct (match_exp line match_duration_exp) as [md [?|]]; [done|].
  by rewrite Hu.
Qed.

(** When no line carries both figures, the loop reads the whole file and
    counts the lines with a duration. *)
Lemma read_lines_durations (lines : list (list rune)) last b found :
  Forall (λ l, has_duration l = true → has_uncertainty l = false)
         (lines ++ [last]) →
  read_lines (reader_of lines last) b found
  = (fold_left take_duration
       (filter (λ l, has_duration l = true) (lines ++ [last])) b,
     found + Z.of_nat (length (filter (λ l, has_duration l = true)
                                 (lines ++ [last]))),
     None).
Proof.
  unfold reader_of. revert b found.
  induction lines as [|l lines IH]; intros b found Hall.
  - simpl app in *. rewrite Forall_singleton in Hall.
    rewrite filter_cons, filter_nil.
    destruct (has_duration last) eqn:Hd.
    + rewrite decide_True by done.
      rewrite read_lines_duration_eof by auto. simpl. done.
    + rewrite decide_False by done.
      rewrite read_lines_skip_eof by auto. simpl. by rewrite Z.add_0_r.
  - simpl app in Hall. apply Forall_cons in Hall as [Hl Hall].
    rewrite fmap_cons. simpl app. rewrite filter_cons.
    destruct (has_duration l) eqn:Hd.
    + rewrite decide_True by done.
      rewrite read_lines_duration by auto. rewrite IH by done.
      simpl. do 2 f_equal. lia.
    + rewrite decide_False by done.
      rewrite read_lines_skip by auto. by rewrite IH.
Qed.

Lemma reader_of_split (lines : list (list rune)) last pre line post :
  lines ++ [last] = pre ++ line :: post →
  ∃ err rest,
    reader_of lines last = ((λ l, (l, None)) <$> pre) ++ (line, err) :: rest
    ∧ (err = None ∨ err = Some io.EOF).
Proof.
  unfold reader_of. revert lines.
  induction pre as [|x pre IH]; intros [|l lines] Heq; simplify_eq/=.
  - eauto.
  - eauto.
  - by destruct pre.
  - destruct (IH lines) as (err & rest & -> & Herr); [done|]. eauto.
Qed.

(** The loop decides what it assigns from the lines alone. *)
Lemma read_lines_overwrite reader found :
  ∃ r u found' err,
    ∀ b, read_lines reader b found = (overwrite r u b, found', err).
Proof.
  revert found. induction reader as [|[line e] reader IH]; intros found.
  { exists None, None, found, None. by intros []. }
  assert (Hid : ∀ b, overwrite None None b = b) by by intros [].
  assert (Hr : ∀ x r u b,
    overwrite r u (set_Runtime b x) = overwrite (Some (default x r)) u b)
    by by intros ? [] ? [].
  assert (Hu : ∀ x y r u b,
    overwrite r u (set_Uncertainty (set_Runtime b x) y)
    = overwrite (Some (default x r)) (Some (default y u)) b)
    by by intros ? ? [] [] [].
  simpl.
  destruct (match_exp line match_duration_exp) as [md [?|]];
    [|destruct (match_exp line match_uncertainty_exp) as [mu [?|]]];
    destruct (bool_decide (e = Some io.EOF)); simpl;
    try destruct e; simpl;
    try (destruct (2 <=? found + 1 + 1));
    try (by exists None, None, found, None; intros; rewrite Hid);
    try (by eexists None, None, found, (Some _); intros; rewrite Hid);
    try (by exists (Some (get_float md)), None, (found + 1), None; intros []);
    try (by exists (Some (get_float md)), (Some (get_float mu)),
           (found + 1 + 1), None; intros []).
  all: first
    [ destruct (IH found) as (r & u & f' & err & H);
      exists r, u, f', err; by intros; rewrite H
    | destruct (IH (found + 1)) as (r & u & f' & err & H);
      exists (Some (default (get_float md) r)), u, f', err;
      by intros; rewrite H, Hr
    | destruct (IH (found + 1 + 1)) as (r & u & f' & err & H);
      exists (Some (default (get_float md) r)),
             (Some (default (get_float mu) u)), f', err;
      by intros; rewrite H, Hu ].
Qed.

Lemma read_lines_idempotent reader b found b' found' err :
  read_lines reader b found = (b', found', err) →
  read_lines reader b' found = (b', found', err)
  ∧ Name b' = Name b ∧ Path b' = Path b.
Proof.
  destruct (read_lines_overwrite reader found) as (r & u & f & e & H).
  rewrite !H. intros [= <- <- <-]. by destruct r, u, b.
Qed.

(** The struct after the loop: untouched when no line had a duration,
    and otherwise with the runtime of a line that had one. *)
Lemma read_lines_runtime (lines : list (list rune)) last b found b' found' err :
  0 ≤ found →
  read_lines (reader_of lines last) b found = (b', found', err) →
  (Forall (λ l, has_duration l = false) (lines ++ [last]) ∧ b' = b)
  ∨ (∃ line m, line ∈ lines ++ [last]
       ∧ match_exp line match_duration_exp = (m, None)
       ∧ Runtime b' = get_float m).
Proof.
  assert (Hstep : ∀ line e reader b found b' found' err,
    0 ≤ found → e = None ∨ e = Some io.EOF →
    has_duration line = true →
    read_lines ((line, e) :: reader) b found = (b', found', err) →
    (∃ m, match_exp line match_duration_exp = (m, None)
          ∧ ((e = None ∧ has_uncertainty line = false
              ∧ read_lines reader (set_Runtime b (get_float m)) (found + 1)
                = (b', found', err))
             ∨ Runtime b' = get_float m))).
  { clear. intros line e reader b found b' found' err Hf He Hd.
    unfold has_duration in Hd. apply bool_decide_eq_true in Hd.
    destruct (match_exp line match_duration_exp) as [md [?|]] eqn:Hmd; [done|].
    destruct (has_uncertainty line) eqn:Hu.
    - unfold has_uncertainty in Hu. apply bool_decide_eq_true in Hu.
      destruct (match_exp line match_uncertainty_exp) as [mu [?|]] eqn:Hmu;
        [done|].
      rewrite (read_lines_both _ _ _ _ _ md mu) by done.
      intros [= <- <- <-]. exists md. split; [done|]. by right.
    - destruct He as [-> | ->].
      + rewrite read_lines_duration by (unfold has_duration; rewrite ?Hmd; auto).
        unfold take_duration. rewrite Hmd. intros H.
        exists md. split; [done|]. left. done.
      + rewrite read_lines_duration_eof
          by (unfold has_duration; rewrite ?Hmd; auto).
        unfold take_duration. rewrite Hmd. intros [= <- <- <-].
        exists md. split; [done|]. by right. }
  unfold reader_of. revert b found.
  induction lines as [|l lines IH]; intros b found Hf; simpl app.
  - destruct (has_duration last) eqn:Hd.
    + intros (m & Hm & [(? & _) | Hr])%Hstep; [done| |done|auto|done].
      right. exists last, m. split_and!; [left | done | done].
    + rewrite read_lines_skip_eof by done. intros [= <- <- <-].
      left. split; [|done]. by apply Forall_singleton.
  - rewrite ?fmap_cons. simpl app.
    destruct (has_duration l) eqn:Hd.
    + intros (m & Hm & [(_ & Hu & Hrest) | Hr])%Hstep; [| |done|auto|done].
      * apply IH in Hrest as [[Hall ->] | (line & m' & Hin & Hm' & Hr)]; [| |lia].
        -- right. exists l, m. split_and!; [left | done | done].
        -- right. exists line, m'. split_and!; [by right | done | done].
      * right. exists l, m. split_and!; [left | done | done].
    + rewrite read_lines_skip by done.
      intros [[Hall ->] | (line & m' & Hin & Hm' & Hr)]%IH; [| |done].
      * left. split; [|done]. by constructor.
      * right. exists line, m'. split_and!; [by right | done | done].
Qed.

(** ** [get_benchmark_results] *)

Lemma get_benchmark_results_file cfg p w b data :
  heap w !! p = Some b →
  os.Open (report_path cfg b) (fs w) = (Some (File data), None) →
  get_benchmark_results cfg p w =
  Some (let '(_, found, err) := read_lines (bufio.ReadBytes 10 data) b 0 in
        match err with
        | Some e => Some e
        | None => if negb (found =? 2) then Some IncompleteReport else None
        end,
        with_heap w (<[p := (read_lines (bufio.ReadBytes 10 data) b 0).1.1]>
                       (heap w))).
Proof.
  intros Hp Hopen. unfold get_benchmark_results, bind, load, get_world, store.
  rewrite Hp. unfold report_path in Hopen. rewrite Hopen. simpl.
  destruct (read_lines _ b 0) as [[b' found] err]. simpl. rewrite Hp.
  destruct err; [done|]. by destruct (found =? 2).
Qed.

(** A report without any duration line is incomplete. *)
Lemma get_benchmark_results_no_duration cfg p w b data :
  heap w !! p = Some b →
  os.Open (report_path cfg b) (fs w) = (Some (File data), None) →
  Forall (λ l, has_duration l = false) (file_lines data) →
  get_benchmark_results cfg p w
  = Some (Some IncompleteReport, with_heap w (<[p := b]> (heap w))).
Proof.
  intros Hp Hopen Hall.
  rewrite (get_benchmark_results_file _ _ _ b data) by done.
  unfold file_lines in Hall.
  destruct (ReadBytes_reader_of data) as (lines & last & Hr).
  rewrite Hr in *. rewrite reader_of_lines in Hall.
  rewrite read_lines_durations
    by (eapply Forall_impl; [done|]; simpl; congruence).
  assert (filter (λ l, has_duration l = true) (lines ++ [last]) = []) as ->.
  { induction Hall as [|l ls Hl _ IH]; [done|].
    rewrite filter_cons, decide_False by congruence. done. }
  done.
Qed.

(** A report with one line that has a duration figure, and no
    uncertainty figure on that line, is incomplete, whatever its other
    lines hold. *)
Lemma get_benchmark_results_one_duration cfg p w b data :
  heap w !! p = Some b →
  os.Open (report_path cfg b) (fs w) = (Some (File data), None) →
  length (filter (λ l, has_duration l = true) (file_lines data)) = 1%nat →
  Forall (λ l, has_duration l = true → has_uncertainty l = false)
         (file_lines data) →
  ∃ w', get_benchmark_results cfg p w = Some (Some IncompleteReport, w').
Proof.
  intros Hp Hopen.
  rewrite (get_benchmark_results_file _ _ _ b data) by done.
  unfold file_lines.
  destruct (ReadBytes_reader_of data) as (lines & last & Hr).
  rewrite Hr, reader_of_lines.
  intros Hone Hall. rewrite read_lines_durations by done.
  rewrite Hone. simpl. eauto.
Qed.

(** C1, as the code has it.  When the first line of the report that has
    a duration figure also has the uncertainty figure (one line, as
    [perf stat] writes them), parsing succeeds with the two figures of
    that line, wherever the line stands in the report. *)
Theorem report_figures_on_one_line cfg p w b data pre line post md mu :
  heap w !! p = Some b →
  os.Open (report_path cfg b) (fs w) = (Some (File data), None) →
  file_lines data = pre ++ line :: post →
  Forall (λ l, has_duration l = false) pre →
  match_exp line match_duration_exp = (md, None) →
  match_exp line match_uncertainty_exp = (mu, None) →
  get_benchmark_results cfg p w
  = Some (None,
          with_heap w
            (<[p := {| Name := Name b; Path := Path b;
                       Runtime := get_float md;
                       Uncertainty := get_float mu |}]> (heap w))).
Proof.
  intros Hp Hopen Hsplit Hpre Hd Hu.
  rewrite (get_benchmark_results_file _ _ _ b data) by done.
  unfold file_lines in Hsplit.
  destruct (ReadBytes_reader_of data) as (lines & last & Hr).
  rewrite Hr in *. rewrite reader_of_lines in Hsplit.
  destruct (reader_of_split _ _ _ _ _ Hsplit) as (err & rest & -> & Herr).
  rewrite read_lines_skip_all by done.
  rewrite (read_lines_both _ _ _ _ _ md mu) by done. done.
Qed.

(** C9. When the report turns out incomplete after a line with a duration
    figure was read, the struct keeps the runtime parsed from such a
    line: the assignment is not undone. *)
Theorem incomplete_report_keeps_runtime cfg p w w' b data :
  heap w !! p = Some b →
  os.Open (report_path cfg b) (fs w) = (Some (File data), None) →
  get_benchmark_results cfg p w = Some (Some IncompleteReport, w') →
  Exists (λ l, has_duration l = true) (file_lines data) →
  ∃ b' line m,
    heap w' !! p = Some b'
    ∧ line ∈ file_lines data
    ∧ match_exp line match_duration_exp = (m, None)
    ∧ Runtime b' = get_float m.
Proof.
  intros Hp Hopen Hres Hex.
  rewrite (get_benchmark_results_file _ _ _ b data) in Hres by done.
  injection Hres as _ <-. unfold file_lines in *.
  destruct (ReadBytes_reader_of data) as (lines & last & Hr).
  rewrite Hr in *. rewrite reader_of_lines in *.
  destruct (read_lines (reader_of lines last) b 0) as [[b' found] err] eqn:Hl.
  apply read_lines_runtime in Hl as [[Hall _] | (line & m & Hin & Hm & Hrt)];
    [| |done].
  - exfalso. apply Exists_exists in Hex as (l & Hin & Hd).
    rewrite Forall_forall in Hall. specialize (Hall l Hin). congruence.
  - exists b', line, m. simpl. by rewrite lookup_insert_eq.
Qed.

(** ** Directory listings *)

Lemma ReadDir_dir dirname root perm es :
  os.resolve dirname root = Some (Dir perm es) →
  ioutil.ReadDir dirname root
  = (merge_sort ioutil.by_name (ioutil.info <$> map_to_list es), None).
Proof. intros H. unfold ioutil.ReadDir, os.Open. by rewrite H. Qed.

Lemma elem_of_listing (es : gmap string node) (f : FileInfo) :
  f ∈ merge_sort ioutil.by_name (ioutil.info <$> map_to_list es)
  ↔ ∃ name n, es !! name = Some n ∧ f = ioutil.info (name, n).
Proof.
  rewrite merge_sort_Permutation, list_elem_of_fmap. split.
  - intros ([name n] & -> & Hin%elem_of_map_to_list). eauto.
  - intros (name & n & Hin%elem_of_map_to_list & ->). eauto.
Qed.

Lemma contains_name_spec (name : string) (files : list FileInfo) :
  contains_name name files = true ↔ ∃ f, f ∈ files ∧ FileInfo_Name f = name.
Proof.
  induction files as [|f files IH]; simpl.
  - split; [done|]. by intros (f & ?%elem_of_nil & _).
  - case_bool_decide as Hf.
    + split; [|done]. intros _. exists f. split; [left | done].
    + rewrite IH. split.
      * intros (g & Hin & Hg). exists g. split; [by right | done].
      * intros (g & [-> | Hin]%elem_of_cons & Hg); [done | eauto].
Qed.

(** The probe answers for entries of any kind. *)
Lemma directory_contains_file_dir name directory root perm es :
  os.resolve directory root = Some (Dir perm es) →
  directory_contains_file name directory root
  = (bool_decide (is_Some (es !! name)), None).
Proof.
  intros H. unfold directory_contains_file.
  rewrite (ReadDir_dir _ _ perm es) by done. f_equal.
  apply eq_true_iff_eq. rewrite contains_name_spec, bool_decide_eq_true.
  split.
  - intros (f & (n' & n & Hn & ->)%elem_of_listing & <-). by exists n.
  - intros [n Hn]. exists (ioutil.info (name, n)). split; [|done].
    apply elem_of_listing. eauto.
Qed.

(** ** The compile step *)

Lemma no_suffix_bag directory suffix (files : list FileInfo) (bag : list string) :
  Forall (λ f, FileInfo_IsDir f = false →
               strings.HasSuffix (FileInfo_Name f) suffix = false) files →
  fold_left
    (λ bag file,
       if FileInfo_IsDir file then bag
       else if strings.HasSuffix (FileInfo_Name file) suffix
            then bag ++ [directory +:+ "/" +:+ FileInfo_Name file]
            else bag)
    files bag = bag.
Proof.
  induction 1 as [|f files Hf _ IH]; [done|]. simpl.
  destruct (FileInfo_IsDir f); [done|]. by rewrite Hf.
Qed.

(** C5. A source directory without a file whose name ends in [.c] makes
    the compile step fail with [NoSourceFiles]: no command is built and
    the world, with the list of the processes run, stays as it was. *)
Theorem compile_without_sources cfg p compiler w b perm es :
  heap w !! p = Some b →
  os.resolve (Path b) (fs w) = Some (Dir perm es) →
  map_Forall (λ name n, is_dir n = false →
                        strings.HasSuffix name ".c" = false) es →
  get_compile_command compiler (Name b) (Path b) (Bin cfg) (fs w)
  = (None, Some NoSourceFiles)
  ∧ compile_benchmark cfg p compiler w = Some (Some NoSourceFiles, w).
Proof.
  intros Hp Hdir Hnone.
  assert (get_compile_command compiler (Name b) (Path b) (Bin cfg) (fs w)
          = (None, Some NoSourceFiles)) as Hcmd.
  { unfold get_compile_command, get_files_by_suffix.
    rewrite (ReadDir_dir _ _ perm es) by done.
    rewrite no_suffix_bag; [done|].
    apply Forall_forall. intros f (name & n & Hn & ->)%elem_of_listing.
    simpl. by apply (Hnone name n). }
  split; [done|].
  unfold compile_benchmark, bind, load, get_world. by rewrite Hp, Hcmd.
Qed.

(** ** The measurement step *)

(** C6. Without an entry of the benchmark's name in the binaries
    directory, the measurement step fails with [ExecutableNotFound] and
    runs no process. *)
Theorem evaluate_without_executable cfg p repeats w b perm es :
  heap w !! p = Some b →
  os.resolve (Bin cfg) (fs w) = Some (Dir perm es) →
  es !! Name b = None →
  evaluate_benchmark p cfg repeats w
  = Some (Some (ExecutableNotFound (Name b) (Bin cfg)), w).
Proof.
  intros Hp Hdir Hnone.
  unfold evaluate_benchmark, bind, load, get_world. rewrite Hp.
  rewrite (directory_contains_file_dir _ _ _ perm es) by done.
  rewrite Hnone, bool_decide_eq_false_2; [done|].
  by intros [? ?].
Qed.

(** Reading the results touches the struct only. *)
Lemma get_benchmark_results_frame cfg p w b :
  heap w !! p = Some b →
  ∃ err b',
    get_benchmark_results cfg p w = Some (err, with_heap w (<[p := b']> (heap w)))
    ∧ Name b' = Name b ∧ Path b' = Path b.
Proof.
  intros Hp. unfold get_benchmark_results, bind, load, get_world, store, ret.
  rewrite Hp.
  destruct (os.Open _ (fs w)) as [[file|] [e|]] eqn:Hopen.
  - exists (Some e), b. rewrite insert_id by done. by destruct w.
  - destruct (read_lines _ b 0) as [[b' found] err] eqn:Hl. simpl. rewrite Hp.
    apply read_lines_idempotent in Hl as (_ & ? & ?).
    destruct err; [by eauto|]. destruct (found =? 2); simpl; by eauto.
  - exists (Some e), b. rewrite insert_id by done. by destruct w.
  - unfold os.Open in Hopen. by destruct (os.resolve _ _).
Qed.

(** With an entry of its name in the binaries directory, the measurement
    step runs the measurement command. *)
Lemma evaluate_benchmark_run cfg p repeats w b perm es n :
  heap w !! p = Some b →
  os.resolve (Bin cfg) (fs w) = Some (Dir perm es) →
  es !! Name b = Some n →
  evaluate_benchmark p cfg repeats w
  = Run (perf_command cfg b repeats (environ w)) w.
Proof.
  intros Hp Hdir Hn.
  unfold evaluate_benchmark, bind, load, get_world. rewrite Hp.
  rewrite (directory_contains_file_dir _ _ _ perm es) by done.
  rewrite Hn, bool_decide_eq_true_2 by eauto. done.
Qed.

(** C10. The probe answers [true] for an entry of any kind, a directory
    included.  An entry of the benchmark's name in the binaries directory
    therefore lets [Evaluate_Benchmark] skip the compilation and lets
    [evaluate_benchmark] run the measurement command: the one process
    that is run is the measurement. *)
Theorem any_entry_passes_for_executable compiler cfg p repeats w b perm es n :
  heap w !! p = Some b →
  os.resolve (Bin cfg) (fs w) = Some (Dir perm es) →
  es !! Name b = Some n →
  directory_contains_file (Name b) (Bin cfg) (fs w) = (true, None)
  ∧ evaluate_benchmark p cfg repeats w
    = Run (perf_command cfg b repeats (environ w)) w
  ∧ ∃ err w' out,
      Evaluate_Benchmark compiler cfg repeats p w = Some (err, w')
      ∧ spawned w' = spawned w ++ [perf_command cfg b repeats (environ w)]
      ∧ stdout w'
        = stdout w
          ++ ["- Success" +:+ newline;
              "Evaluating benchmark " +:+ dquote +:+ Name b +:+ dquote
                +:+ "..." +:+ newline]
          ++ out.
Proof.
  intros Hp Hdir Hn.
  assert (directory_contains_file (Name b) (Bin cfg) (fs w) = (true, None))
    as Hprobe.
  { rewrite (directory_contains_file_dir _ _ _ perm es) by done.
    by rewrite Hn, bool_decide_eq_true_2 by eauto. }
  split; [done|]. split; [by eapply evaluate_benchmark_run|].
  unfold Evaluate_Benchmark, bind at 1 2. unfold load at 1, get_world at 1.
  rewrite Hp, Hprobe. simpl negb. cbv iota.
  unfold bind at 1, ret at 1. unfold bind at 1, fmt_Print at 1.
  unfold bind at 1, fmt_Print at 1. unfold bind at 1.
  erewrite evaluate_benchmark_run by done.
  unfold Run. simpl environ. simpl spawned.
  destruct (run_process _ _) as [root' [e|]] eqn:Hrun.
  - eexists _, _, []. split; [done|]. split; [done|]. simpl.
    by rewrite <- !app_assoc.
  - unfold bind at 1, fmt_Print at 1. unfold bind at 1.
    edestruct (get_benchmark_results_frame cfg p) as (err & b' & -> & _);
      [exact Hp|].
    destruct err; eexists _, _, [_]; (split; [done|]); (split; [done|]);
      simpl; by rewrite <- !app_assoc.
Qed.

(** ** Discovery *)

Lemma Init_Benchmarks_range_spec cfg (files : list FileInfo) (acc : list loc) w :
  ∃ new h',
    Init_Benchmarks_range cfg files acc w = Some (acc ++ new, with_heap w h')
    ∧ Forall2 (λ p f, h' !! p = Some (discovered cfg (FileInfo_Name f)))
              new (filter (λ f, FileInfo_IsDir f = true) files)
    ∧ NoDup new
    ∧ (∀ p, p ∈ new → heap w !! p = None)
    ∧ (∀ p, p ∉ new → h' !! p = heap w !! p).
Proof.
  revert acc w. induction files as [|f files IH]; intros acc w; simpl.
  { exists [], (heap w). rewrite app_nil_r. unfold ret.
    split_and!; [by destruct w | constructor | constructor | |done].
    by intros p ?%elem_of_nil. }
  rewrite filter_cons. destruct (FileInfo_IsDir f) eqn:Hd; simpl.
  - unfold bind, alloc.
    set (p := fresh (dom (heap w))).
    assert (heap w !! p = None) as Hfresh.
    { apply not_elem_of_dom, is_fresh. }
    destruct (IH (acc ++ [p]) (with_heap w (<[p := discovered cfg (FileInfo_Name f)]> (heap w))))
      as (new & h' & Heq & Hall & Hnd & Hnew & Hold).
    simpl in Hnew, Hold.
    assert (p ∉ new) as Hp.
    { intros Hin. specialize (Hnew p Hin). by rewrite lookup_insert_eq in Hnew. }
    exists (p :: new), h'. rewrite <- app_assoc in Heq.
    split_and!; [exact Heq | | by constructor | |].
    + constructor; [|done]. rewrite Hold by done. by rewrite lookup_insert_eq.
    + intros q [-> | Hq]%elem_of_cons; [done|].
      specialize (Hnew q Hq). rewrite lookup_insert_ne in Hnew; [done|].
      by intros ->.
    + intros q [Hqp Hq]%not_elem_of_cons. rewrite Hold by done.
      by rewrite lookup_insert_ne.
  - apply IH.
Qed.

(** C7. Discovery makes one [Benchmark] for every immediate
    sub-directory of the source root, whatever the sub-directory holds,
    and none for a plain file; its name is the entry's name, its path
    [sourceRoot/name], and both measurements are zero. *)
Theorem discovery_of_subdirectories cfg w perm es :
  os.resolve (Src cfg) (fs w) = Some (Dir perm es) →
  ∃ ptrs h' bs,
    Init_Benchmarks cfg w = Some ((ptrs, None), with_heap w h')
    ∧ Forall2 (λ p b, h' !! p = Some b) ptrs bs
    ∧ NoDup ptrs
    ∧ (∀ p, p ∈ ptrs → heap w !! p = None)
    ∧ (∀ p, p ∉ ptrs → h' !! p = heap w !! p)
    ∧ NoDup (Name <$> bs)
    ∧ (∀ name, name ∈ Name <$> bs ↔ ∃ perm' es', es !! name = Some (Dir perm' es'))
    ∧ Forall (λ b, Path b = Src cfg +:+ "/" +:+ Name b
                   ∧ Runtime b = 0%float ∧ Uncertainty b = 0%float) bs.
Proof.
  intros Hdir. unfold Init_Benchmarks, bind, get_world.
  rewrite (ReadDir_dir _ _ perm es) by done.
  set (files := merge_sort _ _).
  destruct (Init_Benchmarks_range_spec cfg files [] w)
    as (new & h' & -> & Hall & Hnd & Hnew & Hold).
  set (dirs := filter (λ f, FileInfo_IsDir f = true) files) in *.
  exists new, h', (discovered cfg ∘ FileInfo_Name <$> dirs).
  assert (Name <$> (discovered cfg ∘ FileInfo_Name <$> dirs)
          = FileInfo_Name <$> dirs) as Hnames.
  { rewrite <- list_fmap_compose. by apply list_fmap_ext. }
  split_and!; [done | | done | done | done | | |].
  - apply Forall2_fmap_r. eapply Forall2_impl; [exact Hall|]. done.
  - rewrite Hnames. subst dirs files.
    apply (NoDup_fmap_2_strong _).
    + intros f g [Hf (n1 & x1 & H1 & ->)%elem_of_listing]%list_elem_of_filter
                 [Hg (n2 & x2 & H2 & ->)%elem_of_listing]%list_elem_of_filter.
      simpl. intros ->. by simplify_eq.
    + apply NoDup_filter. rewrite merge_sort_Permutation.
      apply (NoDup_fmap_2_strong _); [|apply NoDup_map_to_list].
      intros [n1 x1] [n2 x2] H1%elem_of_map_to_list H2%elem_of_map_to_list.
      unfold ioutil.info. simpl. intros [= -> _]. by simplify_eq.
  - intros name. rewrite Hnames, list_elem_of_fmap. subst dirs files. split.
    + intros (f & -> & [Hf (n & x & Hx & ->)%elem_of_listing]%list_elem_of_filter).
      simpl in *. destruct x; [done | eauto].
    + intros (perm' & es' & Hx). exists (ioutil.info (name, Dir perm' es')).
      split; [done|]. apply list_elem_of_filter. split; [done|].
      apply elem_of_listing. eauto.
  - apply Forall_fmap, Forall_forall. by intros f _.
Qed.

(** ** Filtering by cached reports *)

Lemma get_benchmark_results_ok cfg p w w1 :
  get_benchmark_results cfg p w = Some (None, w1) →
  ∃ b file b',
    heap w !! p = Some b
    ∧ os.Open (report_path cfg b) (fs w) = (Some file, None)
    ∧ read_lines (bufio.NewReader (report_path cfg b) file) b 0 = (b', 2, None)
    ∧ w1 = with_heap w (<[p := b']> (heap w)).
Proof.
  unfold get_benchmark_results, bind, load, get_world, store, ret, report_path.
  destruct (heap w !! p) as [b|] eqn:Hp; [|done].
  destruct (os.Open _ (fs w)) as [[file|] [e|]] eqn:Hopen; try done.
  destruct (read_lines _ b 0) as [[b' found] err] eqn:Hl. simpl. rewrite Hp.
  destruct err; [done|].
  destruct (found =? 2) eqn:Hf; simpl; [|done].
  apply Z.eqb_eq in Hf as ->. intros [= <-]. by exists b, file, b'.
Qed.

Section Filtering.

Variables (cfg : Configuration) (root : node) (perm : Z).
Variables (es : gmap string node) (h0 : gmap loc Benchmark).
Hypothesis Hstats : os.resolve (Stats cfg) root = Some (Dir perm es).

Lemma tracked_name h q b :
  tracked cfg root es h0 h → h !! q = Some b → ∃ b0, h0 !! q = Some b0 ∧ Name b = Name b0.
Proof using Type.
  intros Ht Hq. destruct (Ht q) as [Heq | (b0 & file & b' & H0 & _ & _ & Hl & Hq')].
  - exists b. by rewrite <- Heq.
  - exists b0. split; [done|]. simplify_eq.
    by apply read_lines_idempotent in Hl as (_ & ? & _).
Qed.

Lemma parse_step p w w1 :
  fs w = root → tracked cfg root es h0 (heap w) →
  (∃ b, heap w !! p = Some b ∧ is_Some (es !! (Name b +:+ ".txt"))) →
  get_benchmark_results cfg p w = Some (None, w1) →
  fs w1 = root
  ∧ tracked cfg root es h0 (heap w1)
  ∧ read_at cfg root es h0 (heap w1) p
  ∧ (∀ q, read_at cfg root es h0 (heap w) q →
          read_at cfg root es h0 (heap w1) q).
Proof using Hstats.
  intros Hfs Ht (b & Hp & Hes) (b1 & file & b' & Hp1 & Hopen & Hl & ->)
    %get_benchmark_results_ok.
  simplify_eq. simpl.
  assert (read_at cfg (fs w) es h0 (<[p := b']> (heap w)) p) as Hparsed.
  { destruct (Ht p) as [Heq | (b0 & file0 & b0' & H0 & Hes0 & Hopen0 & Hl0 & Hq)].
    - exists b, file, b'. rewrite <- Heq, lookup_insert_eq. done.
    - simplify_eq.
      pose proof (read_lines_idempotent _ _ _ _ _ _ Hl0) as (Hidem & Hn & Hpath).
      assert (report_path cfg b = report_path cfg b0) as Hrp
        by (unfold report_path; by rewrite Hn).
      rewrite Hrp in *. rewrite Hopen in Hopen0. injection Hopen0 as <-.
      rewrite Hidem in Hl. injection Hl as <-.
      exists b0, file, b. by rewrite lookup_insert_eq. }
  split_and!; [done | | done |].
  - intros q. destruct (decide (q = p)) as [-> | Hne]; [by right|].
    rewrite lookup_insert_ne by done.
    destruct (Ht q) as [Heq | (b0 & file0 & b0' & ? & ? & ? & ? & ?)];
      [by left | right].
    exists b0, file0, b0'. by rewrite lookup_insert_ne.
  - intros q Hq. destruct (decide (q = p)) as [-> | Hne]; [done|].
    destruct Hq as (b0 & file0 & b0' & ? & ? & ? & ? & ?).
    exists b0, file0, b0'. by rewrite lookup_insert_ne.
Qed.

Lemma Get_Unevaluated_range_spec ptrs acc w uneval w' :
  fs w = root → tracked cfg root es h0 (heap w) →
  Get_Unevaluated_range cfg ptrs acc w = Some ((uneval, None), w') →
  fs w' = root
  ∧ tracked cfg root es h0 (heap w')
  ∧ (∀ q, read_at cfg root es h0 (heap w) q →
          read_at cfg root es h0 (heap w') q)
  ∧ uneval = acc ++ filter (λ p, needs_evaluation es h0 p = true) ptrs
  ∧ (∀ p, p ∈ ptrs →
       is_Some (h0 !! p)
       ∧ (needs_evaluation es h0 p = false →
          read_at cfg root es h0 (heap w') p)).
Proof using Hstats.
  revert acc w. induction ptrs as [|p ptrs IH]; intros acc w Hfs Ht; simpl.
  { unfold ret. intros [= <- <-]. rewrite app_nil_r.
    split_and!; [done..|]. by intros p ?%elem_of_nil. }
  unfold bind at 1, load at 1.
  destruct (heap w !! p) as [b|] eqn:Hp; [|done].
  unfold bind at 1, get_world at 1. rewrite Hfs.
  rewrite (directory_contains_file_dir _ _ _ perm es) by done.
  destruct (tracked_name _ _ _ Ht Hp) as (b0 & Hp0 & Hname).
  assert (needs_evaluation es h0 p
          = negb (bool_decide (is_Some (es !! (Name b +:+ ".txt"))))) as Hneeds.
  { unfold needs_evaluation. by rewrite Hp0, Hname. }
  rewrite filter_cons.
  case_bool_decide as Hes; simpl in Hneeds.
  - rewrite decide_False by (rewrite Hneeds; done).
    unfold bind at 1.
    destruct (get_benchmark_results cfg p w) as [[[e|] w1]|] eqn:Hres;
      [done| |done].
    destruct (parse_step p w w1) as (Hfs1 & Ht1 & Hp1 & Hstable);
      [done | done | by eauto | done |].
    intros (Hfs' & Ht' & Hstable' & -> & Hall)%IH; [|done..].
    split_and!; [done | done | by auto | done |].
    intros q [-> | Hq]%elem_of_cons; [|by apply Hall].
    split; [by eauto|]. intros _. by apply Hstable'.
  - rewrite decide_True by (rewrite Hneeds; done).
    intros (Hfs' & Ht' & Hstable' & -> & Hall)%IH; [|done..].
    split_and!; [done | done | done | by rewrite <- app_assoc |].
    intros q [-> | Hq]%elem_of_cons; [|by apply Hall].
    split; [by eauto|]. by rewrite Hneeds.
Qed.

End Filtering.

(** X19.  When the filter returns without an error, the returned slice is
    the list without the benchmarks for which the results directory has
    an entry [<name>.txt], in the order of the list; the structs of the
    returned ones are untouched, and the struct of every other benchmark
    of the list holds what the loop of [get_benchmark_results] made of
    it from the cached report, with a count of 2 at its end. *)
Theorem unevaluated_iff_no_report cfg ptrs w uneval w' perm es :
  os.resolve (Stats cfg) (fs w) = Some (Dir perm es) →
  Get_Unevaluated_Benchmarks cfg ptrs w = Some ((uneval, None), w') →
  fs w' = fs w
  ∧ uneval = filter (λ p, needs_evaluation es (heap w) p = true) ptrs
  ∧ ∀ p, p ∈ ptrs →
      ∃ b, heap w !! p = Some b
        ∧ (p ∈ uneval ↔ es !! (Name b +:+ ".txt") = None)
        ∧ (p ∈ uneval → heap w' !! p = Some b)
        ∧ (p ∉ uneval → read_at cfg (fs w) es (heap w) (heap w') p).
Proof.
  intros Hstats Hrun. unfold Get_Unevaluated_Benchmarks in Hrun.
  eapply (Get_Unevaluated_range_spec cfg (fs w) perm es (heap w)) in Hrun
    as (Hfs & Ht & _ & -> & Hall); [|done|done|by left].
  split_and!; [done | done |].
  intros p Hp. destruct (Hall p Hp) as [[b Hb] Hparsed].
  exists b. split; [done|].
  assert (needs_evaluation es (heap w) p = true
          ↔ es !! (Name b +:+ ".txt") = None) as Hiff.
  { unfold needs_evaluation. rewrite Hb, negb_true_iff, bool_decide_eq_false.
    rewrite <- eq_None_not_Some. done. }
  simpl. rewrite list_elem_of_filter. split_and!.
  - rewrite <- Hiff. split; [by intros [? _] | by split].
  - intros [Hn _]. destruct (Ht p) as [-> | (b1 & ? & ? & ? & Hes & _)]; [done|].
    simplify_eq. apply Hiff in Hn. rewrite Hn in Hes. by destruct Hes.
  - intros Hnot. apply Hparsed.
    destruct (needs_evaluation es (heap w) p); [|done].
    exfalso. by apply Hnot.
Qed.

Lemma take_duration_last (b : Benchmark) (l1 l2 m2 : list rune) :
  match_exp l2 match_duration_exp = (m2, None) →
  take_duration (take_duration b l1) l2
  = {| Name := Name b; Path := Path b; Runtime := get_float m2;
       Uncertainty := Uncertainty b |}.
Proof.
  intros Hm2. unfold take_duration. rewrite Hm2.
  by destruct (match_exp l1 match_duration_exp) as [m1 [e|]].
Qed.

(** C8 on the code.  A cached report with two lines that hold a duration
    and no line that holds an uncertainty passes for parsed: the filter
    returns without an error and leaves the benchmark out, with the
    runtime of the second of the two lines in its struct and, for its
    uncertainty, what was there before the call. *)
Theorem cached_durations_pass_for_parsed cfg p w b perm es data l1 l2 m2 :
  heap w !! p = Some b →
  os.resolve (Stats cfg) (fs w) = Some (Dir perm es) →
  is_Some (es !! (Name b +:+ ".txt")) →
  os.Open (report_path cfg b) (fs w) = (Some (File data), None) →
  filter (λ l, has_duration l = true) (file_lines data) = [l1; l2] →
  Forall (λ l, has_uncertainty l = false) (file_lines data) →
  match_exp l2 match_duration_exp = (m2, None) →
  Get_Unevaluated_Benchmarks cfg [p] w
  = Some (([], None),
          with_heap w
            (<[p := {| Name := Name b; Path := Path b;
                       Runtime := get_float m2;
                       Uncertainty := Uncertainty b |}]> (heap w))).
Proof.
  intros Hp Hstats Hes Hopen Hfilter Hall Hm2.
  unfold Get_Unevaluated_Benchmarks. simpl.
  unfold bind at 1, load at 1. rewrite Hp.
  unfold bind at 1, get_world at 1.
  rewrite (directory_contains_file_dir _ _ _ perm es) by done.
  rewrite bool_decide_eq_true_2 by done.
  unfold bind at 1.
  rewrite (get_benchmark_results_file _ _ _ b data) by done.
  unfold file_lines in *.
  destruct (ReadBytes_reader_of data) as (lines & last & Hr).
  rewrite Hr in *. rewrite reader_of_lines in *.
  rewrite read_lines_durations
    by (eapply Forall_impl; [exact Hall|]; by simpl).
  rewrite Hfilter. simpl.
  by rewrite (take_duration_last _ _ _ m2).
Qed.

(** ** Paths and [os.Mkdir] *)

Lemma split_slash_no_slash (s x : string) :
  x ∈ os.split_slash s → no_slash x = true.
Proof.
  revert x. induction s as [|c rest IH]; intros x; simpl.
  - by intros ->%list_elem_of_singleton.
  - destruct (Ascii.eqb c "/") eqn:Hc.
    + intros [-> | Hx]%elem_of_cons; [done | by apply IH].
    + destruct (os.split_slash rest) as [|y ys].
      * intros ->%list_elem_of_singleton. simpl. by rewrite Hc.
      * intros [-> | Hx]%elem_of_cons.
        -- simpl. rewrite Hc. simpl. apply IH. by left.
        -- apply IH. by right.
Qed.

Lemma split_slash_single (x : string) :
  no_slash x = true → os.split_slash x = [x].
Proof.
  induction x as [|c rest IH]; simpl; [done|].
  intros [Hc Hrest]%andb_prop. apply negb_true_iff in Hc.
  by rewrite Hc, IH.
Qed.

Lemma components_single (s c : string) :
  c ∈ os.components s → os.components c = [c] ∧ c ≠ EmptyString.
Proof.
  unfold os.components. intros [[Hne Hdot] Hin]%list_elem_of_filter.
  rewrite split_slash_single by by eapply split_slash_no_slash.
  rewrite filter_cons, decide_True by done. done.
Qed.

Lemma file_name_components (d : string) :
  file_name d → os.components d = [d].
Proof.
  intros (Hs & Hne & Hdot). unfold os.components.
  rewrite split_slash_single by done.
  by rewrite filter_cons, decide_True by done.
Qed.

Lemma mkdir_at_cons c c' cs new p es :
  os.mkdir_at (c :: c' :: cs) new (Dir p es)
  = match es !! c with
    | None => inr os.ENOENT
    | Some child =>
        match os.mkdir_at (c' :: cs) new child with
        | inl child' => inl (Dir p (<[c := child']> es))
        | inr e => inr e
        end
    end.
Proof. reflexivity. Qed.

Lemma mkdir_at_walk cs new n n' :
  os.mkdir_at cs new n = inl n' → os.walk cs n' = Some new.
Proof.
  revert n n'. induction cs as [|c cs IH]; intros [data|p es] n'; simpl;
    try done.
  destruct cs as [|c' cs].
  - destruct (es !! c); [done|]. intros [= <-]. simpl.
    by rewrite lookup_insert_eq.
  - destruct (es !! c) as [child|]; [|done].
    destruct (os.mkdir_at (c' :: cs) new child) as [child'|] eqn:Hc; [|done].
    intros [= <-]. simpl os.walk at 1. rewrite lookup_insert_eq. simpl.
    by eapply IH.
Qed.

Lemma kept_refl (n : node) : kept n n.
Proof. destruct n; simpl; eauto. Qed.

Lemma mkdir_at_dir cs new q es n' :
  os.mkdir_at cs new (Dir q es) = inl n' → ∃ es', n' = Dir q es'.
Proof.
  destruct cs as [|c [|c' cs]]; [done| |rewrite mkdir_at_cons].
  - simpl. destruct (es !! c); [done|]. intros [= <-]. eauto.
  - destruct (es !! c) as [child|]; [|done].
    destruct (os.mkdir_at _ _ child); [|done]. intros [= <-]. eauto.
Qed.

(** An entry of the working directory is kept. *)
Lemma mkdir_at_entry cs new n n' name x :
  os.mkdir_at cs new n = inl n' →
  entry name n = Some x → ∃ x', entry name n' = Some x' ∧ kept x x'.
Proof.
  destruct n as [data|p es]; [by destruct cs|].
  destruct cs as [|c [|c' cs]]; [done| |rewrite mkdir_at_cons]; simpl entry.
  - simpl. destruct (es !! c) eqn:Hc; [done|]. intros [= <-]. simpl.
    intros Hn. exists x. split; [|apply kept_refl].
    rewrite lookup_insert_ne; [done|]. intros ->. congruence.
  - destruct (es !! c) as [child|] eqn:Hc; [|done].
    destruct (os.mkdir_at (c' :: cs) new child) as [child'|] eqn:Hm; [|done].
    intros [= <-]. simpl. intros Hn.
    destruct (decide (c = name)) as [-> | ?].
    + rewrite lookup_insert_eq. exists child'. split; [done|].
      rewrite Hc in Hn. injection Hn as <-.
      destruct child as [data|q fs0]; [by destruct cs|].
      by eapply mkdir_at_dir.
    + rewrite lookup_insert_ne by done. exists x. split; [done|].
      apply kept_refl.
Qed.

(** A new entry of the working directory is the directory just made. *)
Lemma mkdir_at_new_entry cs new n n' name x :
  os.mkdir_at cs new n = inl n' →
  entry name n = None → entry name n' = Some x →
  name ∈ cs ∧ x = new.
Proof.
  destruct n as [data|p es]; [by destruct cs|].
  destruct cs as [|c [|c' cs]]; [done| |rewrite mkdir_at_cons]; simpl entry.
  - simpl. destruct (es !! c) eqn:Hc; [done|]. intros [= <-]. simpl.
    intros Hn Hx. destruct (decide (c = name)) as [-> | ?].
    + rewrite lookup_insert_eq in Hx. split; [left | congruence].
    + rewrite lookup_insert_ne in Hx by done. congruence.
  - destruct (es !! c) as [child|] eqn:Hc; [|done].
    destruct (os.mkdir_at (c' :: cs) new child) as [child'|]; [|done].
    intros [= <-]. simpl. intros Hn Hx.
    destruct (decide (c = name)) as [-> | ?]; [congruence|].
    rewrite lookup_insert_ne in Hx by done. congruence.
Qed.

(** A directory that was there keeps its place and its mode. *)
Lemma mkdir_at_keeps cs new n n' ds q es :
  os.mkdir_at cs new n = inl n' →
  os.walk ds n = Some (Dir q es) →
  ∃ es', os.walk ds n' = Some (Dir q es').
Proof.
  revert n n' ds. induction cs as [|c cs IH]; intros [data|p fs0] n' ds;
    simpl; try done.
  destruct cs as [|c' cs].
  - destruct (fs0 !! c) eqn:Hc; [done|]. intros [= <-].
    destruct ds as [|d ds]; simpl.
    + intros [= -> ->]. eauto.
    + destruct (decide (c = d)) as [-> | ?].
      * by rewrite Hc.
      * rewrite lookup_insert_ne by done. eauto.
  - destruct (fs0 !! c) as [child|] eqn:Hc; [|done].
    destruct (os.mkdir_at (c' :: cs) new child) as [child'|] eqn:Hm; [|done].
    intros [= <-].
    destruct ds as [|d ds]; simpl os.walk.
    + intros [= -> ->]. eauto.
    + destruct (decide (c = d)) as [-> | ?].
      * rewrite Hc, lookup_insert_eq. simpl. by eapply IH.
      * rewrite lookup_insert_ne by done. eauto.
Qed.

(** What was created was not there. *)
Lemma mkdir_at_absent cs new n n' :
  os.mkdir_at cs new n = inl n' → os.walk cs n = None.
Proof.
  revert n n'. induction cs as [|c cs IH]; intros [data|p es] n'; simpl;
    try done.
  destruct cs as [|c' cs].
  - by destruct (es !! c) eqn:Hc.
  - destruct (es !! c) as [child|] eqn:Hc; [|done].
    destruct (os.mkdir_at (c' :: cs) new child) as [child'|] eqn:Hm; [|done].
    intros _. simpl. by eapply IH.
Qed.

(** A walk that does not lead towards the new directory finds what it
    found before. *)
Lemma mkdir_at_frame cs q n n' ds :
  os.mkdir_at cs (Dir q ∅) n = inl n' →
  ¬ ds `prefix_of` cs → os.walk ds n' = os.walk ds n.
Proof.
  revert n n' ds. induction cs as [|c cs IH]; intros [data|p es] n' ds;
    simpl; try done.
  destruct cs as [|c' cs].
  - destruct (es !! c) eqn:Hc; [done|]. intros [= <-] Hds.
    destruct ds as [|d ds]; [destruct Hds; apply prefix_nil|]. simpl.
    destruct (decide (c = d)) as [-> | ?].
    + rewrite lookup_insert_eq, Hc. simpl.
      destruct ds as [|d' ds]; [by destruct Hds|]. simpl.
      by rewrite lookup_empty.
    + by rewrite lookup_insert_ne.
  - destruct (es !! c) as [child|] eqn:Hc; [|done].
    destruct (os.mkdir_at (c' :: cs) _ child) as [child'|] eqn:Hm; [|done].
    intros [= <-] Hds.
    destruct ds as [|d ds]; [destruct Hds; apply prefix_nil|]. simpl os.walk.
    destruct (decide (c = d)) as [-> | ?].
    + rewrite lookup_insert_eq, Hc. simpl. eapply IH; [done|].
      intros Hp. apply Hds. by apply prefix_cons.
    + by rewrite lookup_insert_ne.
Qed.

(** ** [Init_Env] *)

Lemma probe_working_directory name root :
  directory_contains_file name "." root
  = match root with
    | Dir _ es => (bool_decide (is_Some (es !! name)), None)
    | File _ => (false, Some (os.PathError "readdirent" "." os.ENOTDIR))
    end.
Proof.
  destruct root as [data|p es].
  - reflexivity.
  - by apply (directory_contains_file_dir _ _ _ p es).
Qed.

Lemma make_if_needed_ok d w w1 :
  make_if_needed d w = Some (None, w1) →
  (is_Some (entry d (fs w)) ∧ w1 = w)
  ∨ (entry d (fs w) = None ∧ d ≠ EmptyString
     ∧ ∃ root', os.mkdir_at (os.components d) (Dir (created_mode w) ∅) (fs w)
                = inl root'
                ∧ w1 = with_fs w root').
Proof.
  unfold make_if_needed, bind, get_world. rewrite probe_working_directory.
  destruct (fs w) as [data|p es] eqn:Hfs; [done|]. simpl.
  case_bool_decide as Hd; simpl.
  - unfold ret. intros [= <-]. by left.
  - unfold os.Mkdir. case_bool_decide as Hempty; [done|].
    rewrite Hfs. fold (created_mode w).
    destruct (os.mkdir_at _ _ _) as [root'|e] eqn:Hm; [|done].
    intros [= <-]. right. rewrite <- eq_None_not_Some in Hd. eauto.
Qed.

Lemma Init_Env_steps cfg w :
  Init_Env cfg w
  = match make_if_needed (Stats cfg) w with
    | Some (None, w1) => make_if_needed (Bin cfg) w1
    | r => r
    end.
Proof.
  unfold Init_Env, make_directories, bind.
  destruct (make_if_needed (Stats cfg) w) as [[[e|] w1]|]; [done| |done].
  destruct (make_if_needed (Bin cfg) w1) as [[[e|] w2]|]; done.
Qed.

Lemma make_if_needed_absent d w :
  directory_contains_file d "." (fs w) = (false, None) →
  make_if_needed d w = os.Mkdir d 511 w.
Proof. intros H. unfold make_if_needed, bind, get_world. by rewrite H. Qed.

Lemma make_if_needed_in_place d w w1 :
  make_if_needed d w = Some (None, w1) → in_place d w w1.
Proof.
  intros [[[x Hx] ->] | (Hd & Hne & root' & Hm & ->)]%make_if_needed_ok;
    unfold in_place.
  - by rewrite Hx.
  - rewrite Hd. unfold created, os.resolve.
    rewrite !bool_decide_eq_false_2 by done. simpl.
    split_and!.
    + done.
    + by eapply mkdir_at_absent.
    + by eapply mkdir_at_walk.
    + intros ds Hds. by eapply mkdir_at_frame.
    + intros ds q es Hq. by eapply mkdir_at_keeps.
Qed.

Lemma Init_Env_in_place cfg w w' :
  Init_Env cfg w = Some (None, w') →
  ∃ w1, in_place (Stats cfg) w w1 ∧ in_place (Bin cfg) w1 w'.
Proof.
  rewrite Init_Env_steps.
  destruct (make_if_needed (Stats cfg) w) as [[[e|] w1]|] eqn:H1; try done.
  intros H2. exists w1. split; by apply make_if_needed_in_place.
Qed.

Lemma Init_Env_present cfg w w' :
  Init_Env cfg w = Some (None, w') →
  present (Stats cfg) w w' ∧ present (Bin cfg) w w'.
Proof.
  rewrite Init_Env_steps.
  destruct (make_if_needed (Stats cfg) w) as [[[e|] w1]|] eqn:H1; try done.
  intros H2. unfold present.
  apply make_if_needed_ok in H1
    as [[Hs ->] | (Hs & Hne & root1 & Hm1 & ->)];
  apply make_if_needed_ok in H2
    as [[Hb ->] | (Hb & Hnb & root2 & Hm2 & ->)]; simpl in *.
  - destruct Hs as [x ->], Hb as [y ->]. split; eexists; eauto using kept_refl.
  - rewrite Hb. destruct Hs as [x Hx]. rewrite Hx. split.
    + by eapply mkdir_at_entry.
    + exists ∅. unfold os.resolve. rewrite bool_decide_eq_false_2 by done.
      by eapply mkdir_at_walk.
  - rewrite Hs. split.
    + exists ∅. unfold os.resolve. rewrite bool_decide_eq_false_2 by done.
      by eapply mkdir_at_walk.
    + destruct (entry (Bin cfg) (fs w)) as [y|] eqn:Hy;
        [by eapply mkdir_at_entry|].
      destruct Hb as [x Hx].
      destruct (mkdir_at_new_entry _ _ _ _ _ _ Hm1 Hy Hx) as [Hin ->].
      apply components_single in Hin as [Hc Hne'].
      exists ∅. unfold os.resolve. rewrite bool_decide_eq_false_2 by done.
      rewrite Hc. destruct root1 as [data|p es]; [done|]. simpl in *.
      by rewrite Hx.
  - rewrite Hs. split.
    + unfold os.resolve. rewrite bool_decide_eq_false_2 by done.
      eapply (mkdir_at_keeps _ _ _ _ (os.components (Stats cfg))); [done|].
      by eapply mkdir_at_walk.
    + destruct (entry (Bin cfg) (fs w)) as [y|] eqn:Hy.
      * destruct (mkdir_at_entry _ _ _ _ _ _ Hm1 Hy) as (x & Hx & _).
        congruence.
      * exists ∅. unfold os.resolve. rewrite bool_decide_eq_false_2 by done.
        by eapply mkdir_at_walk.
Qed.

(** C4, as the code has it.  [Init_Env] sees to the results directory and
    then to the binaries directory; the source root is not part of this.
    A name that is an entry of the working directory, of whatever kind,
    is left as it is, and nothing at all changes at that step.  Any other
    name is created: an empty directory with mode 0777 less the umask
    stands at that path, where there was nothing, every directory that
    was there keeps its place and mode, and a path that does not lead
    towards the new directory leads where it led before.  After a success
    both names are therefore there.  When a creation fails, [Init_Env]
    returns its error, and [main] ends the run on an error of
    [Init_Env]. *)
Theorem Init_Env_results_and_binaries cfg w :
  (∀ w', Init_Env cfg w = Some (None, w') →
         (∃ w1, in_place (Stats cfg) w w1 ∧ in_place (Bin cfg) w1 w')
         ∧ present (Stats cfg) w w' ∧ present (Bin cfg) w w')
  ∧ (∀ e w1,
       directory_contains_file (Stats cfg) "." (fs w) = (false, None) →
       os.Mkdir (Stats cfg) 511 w = Some (Some e, w1) →
       Init_Env cfg w = Some (Some e, w1))
  ∧ (∀ e w1 w2,
       make_if_needed (Stats cfg) w = Some (None, w1) →
       directory_contains_file (Bin cfg) "." (fs w1) = (false, None) →
       os.Mkdir (Bin cfg) 511 w1 = Some (Some e, w2) →
       Init_Env cfg w = Some (Some e, w2))
  ∧ (∀ e w',
       Init_Env main_cfg w = Some (Some e, w') →
       main w = Some (1, with_stderr w' (stderr w' ++ [e]))).
Proof.
  split_and!.
  - intros w' Hinit. split; [by apply Init_Env_in_place|].
    by apply Init_Env_present.
  - intros e w1 Hprobe Hmk. rewrite Init_Env_steps.
    by rewrite make_if_needed_absent, Hmk.
  - intros e w1 w2 H1 Hprobe Hmk. rewrite Init_Env_steps, H1.
    by rewrite make_if_needed_absent, Hmk.
  - intros e w' Hinit. unfold main, bind. fold main_cfg. by rewrite Hinit.
Qed.

(** ** The matcher *)

Lemma iterate_sound (a : Regexp) :
  (∀ s k r, backtrack a s k = Some r →
            ∃ u s', s = u ++ s' ∧ matches a u ∧ k s' = Some r) →
  ∀ fuel s k r,
    iterate (backtrack a) fuel s k = Some r →
    ∃ u s', s = u ++ s' ∧ matches (Star a) u ∧ k s' = Some r.
Proof.
  intros Ha. induction fuel as [|fuel IH]; intros s k r; simpl.
  - intros Hk. exists [], s. split_and!; [done | constructor | done].
  - destruct (backtrack a s _) as [rest|] eqn:Hb.
    + intros [= ->]. apply Ha in Hb as (u & s' & -> & Hu & Hk).
      destruct (_ <? _)%nat; [|done].
      apply IH in Hk as (v & s'' & -> & Hv & Hk).
      exists (u ++ v), s''. rewrite <- app_assoc.
      split_and!; [done | by constructor | done].
    + intros Hk. exists [], s. split_and!; [done | constructor | done].
Qed.

Lemma backtrack_sound (re : Regexp) s k r :
  backtrack re s k = Some r →
  ∃ u s', s = u ++ s' ∧ matches re u ∧ k s' = Some r.
Proof.
  revert s k r. induction re as [cls|a IHa b IHb|a IHa|a IHa|a IHa|a IHa];
    intros s k r; simpl.
  - destruct s as [|c s]; [done|]. destruct (cls c) eqn:Hc; [|done].
    intros Hk. exists [c], s. split_and!; [done | by constructor | done].
  - intros (u & s' & -> & Hu & (v & s'' & -> & Hv & Hk)%IHb)%IHa.
    exists (u ++ v), s''. rewrite <- app_assoc.
    split_and!; [done | by constructor | done].
  - destruct (backtrack a s k) as [rest|] eqn:Hb.
    + intros [= ->]. apply IHa in Hb as (u & s' & -> & Hu & Hk).
      exists u, s'. split_and!; [done | by constructor | done].
    + intros Hk. exists [], s. split_and!; [done | constructor | done].
  - by apply iterate_sound.
  - intros (u & s' & -> & Hu & Hk)%IHa.
    apply iterate_sound in Hk as (v & s'' & -> & Hv & Hk); [|done].
    exists (u ++ v), s''. rewrite <- app_assoc.
    split_and!; [done | by constructor | done].
  - intros (u & s' & -> & Hu & Hk)%IHa.
    exists u, s'. split_and!; [done | by constructor | done].
Qed.

Lemma FindStringSubmatch_sound (re : Regexp) s m :
  FindStringSubmatch re s = Some m →
  matches re m ∧ ∃ pre post, s = pre ++ m ++ post.
Proof.
  induction s as [|c s IH]; simpl; unfold match_here.
  - destruct (backtrack re [] Some) as [rest|] eqn:Hb; [|done].
    apply backtrack_sound in Hb as (u & s' & Hs & Hu & [= ->]).
    symmetry in Hs. apply app_eq_nil in Hs as [-> ->]. simpl.
    intros [= <-]. split; [done|]. by exists [], [].
  - destruct (backtrack re (c :: s) Some) as [rest|] eqn:Hb.
    + apply backtrack_sound in Hb as (u & s' & Hs & Hu & [= ->]).
      rewrite Hs. intros [= <-].
      rewrite length_app, Nat.add_sub, take_app_length.
      split; [done|]. by exists [], rest.
    + intros (Hm & pre & post & ->)%IH. split; [done|].
      by exists (c :: pre), post.
Qed.

Lemma match_exp_sound line exp m :
  match_exp line exp = (m, None) →
  matches exp m ∧ ∃ pre post, line = pre ++ m ++ post.
Proof.
  unfold match_exp.
  destruct (FindStringSubmatch exp line) as [m'|] eqn:Hf; [|done].
  intros [= <-]. by apply FindStringSubmatch_sound.
Qed.

(** ** The shape of the two matches *)

Lemma matches_class_inv cls u :
  matches (CharClass cls) u → ∃ r, u = [r] ∧ cls r = true.
Proof. inversion 1; subst. eauto. Qed.

Lemma matches_lit_inv (c : string) u r :
  runes c = [r] → matches (lit c) u → u = [r].
Proof.
  intros Hc (x & -> & Hx%bool_decide_eq_true)%matches_class_inv. congruence.
Qed.

Lemma matches_star_Forall a (P : rune → Prop) u :
  (∀ v, matches a v → Forall P v) → matches (Star a) u → Forall P u.
Proof.
  intros Ha Hu. remember (Star a) as re eqn:Hre.
  induction Hu as [| | | | |a' u v Hu _ Hv IH| |]; try discriminate.
  - constructor.
  - injection Hre as ->. apply Forall_app. auto.
Qed.

Lemma matches_digit_inv u : matches digit u → ∃ d, u = [d] ∧ ascii_digit d.
Proof.
  intros (d & -> & [?%Z.leb_le ?%Z.leb_le]%andb_prop)%matches_class_inv.
  exists d. by split.
Qed.

Lemma matches_digits_inv u :
  matches (Plus digit) u → u ≠ [] ∧ Forall ascii_digit u.
Proof.
  inversion 1 as [| | | | | |a v w Hv Hw|]; subst.
  apply matches_digit_inv in Hv as (d & -> & Hd). split; [done|].
  constructor; [done|].
  eapply matches_star_Forall; [|done].
  intros x (e & -> & He)%matches_digit_inv. by constructor.
Qed.

Lemma ascii_digit_IsDigit (r : rune) : ascii_digit r → IsDigit r = true.
Proof.
  intros [? ?]. unfold IsDigit. destruct (Z.leb_spec r 255); [|lia].
  apply andb_true_intro. split; apply Z.leb_le; lia.
Qed.

Lemma latin1_IsDigit (r : rune) :
  r ≤ 255 → ¬ ascii_digit r → IsDigit r = false.
Proof.
  intros Hr Hd. unfold IsDigit. destruct (Z.leb_spec r 255); [|lia].
  apply andb_false_iff. unfold ascii_digit in Hd.
  destruct (Z.leb_spec 48 r), (Z.leb_spec r 57); auto. lia.
Qed.

Lemma filter_IsDigit_digits (u : list rune) :
  Forall ascii_digit u → filter (λ d, IsDigit d = true) u = u.
Proof.
  induction 1 as [|r u Hr _ IH]; [done|].
  rewrite filter_cons, decide_True by by apply ascii_digit_IsDigit.
  by rewrite IH.
Qed.

Lemma filter_IsDigit_latin1 (u : list rune) :
  Forall (λ r, r ≤ 255) u →
  filter (λ d, IsDigit d = true) u = filter ascii_digit u.
Proof.
  induction 1 as [|r u Hr _ IH]; [done|].
  rewrite !filter_cons, IH.
  destruct (decide (ascii_digit r)) as [Hd | Hd].
  - by rewrite decide_True by by apply ascii_digit_IsDigit.
  - rewrite decide_False; [done|]. by rewrite latin1_IsDigit.
Qed.

Lemma digits_after_point_none (s : list rune) :
  46 ∉ s → digits_after_point s = 0.
Proof.
  induction s as [|r s IH]; [done|].
  intros [Hr Hs]%not_elem_of_cons. simpl.
  destruct (IsDigit r); [by apply IH|].
  destruct (Z.eqb_spec r 46); [done | by apply IH].
Qed.

Lemma digits_after_point_digits (u s : list rune) :
  Forall ascii_digit u → digits_after_point (u ++ s) = digits_after_point s.
Proof.
  induction 1 as [|r u Hr _ IH]; [done|]. simpl.
  by rewrite ascii_digit_IsDigit.
Qed.

Lemma duration_rune_latin1 (r : rune) : duration_rune r → r ≤ 255 ∧ r ≠ 46.
Proof.
  intros [[? ?] | [-> | Hr]]; [lia | lia |].
  repeat (apply elem_of_cons in Hr as [-> | Hr]; [lia|]).
  by apply elem_of_nil in Hr.
Qed.

Lemma matches_duration_inv m :
  matches match_duration_exp m →
  ∃ d body, m = d :: body ++ [110; 115]
            ∧ ascii_digit d ∧ Forall duration_rune body.
Proof.
  assert (Hgroup : ∀ u,
    matches (Capture (Concat digit (Quest (lit ",")))) u →
    ∃ d q, u = d :: q ∧ ascii_digit d ∧ Forall duration_rune q).
  { intros u Hu. inversion Hu as [| | | | | | |a u' Hc]; subst.
    inversion Hc as [|a b x y Hx Hy| | | | | |]; subst.
    apply matches_digit_inv in Hx as (d & -> & Hd).
    exists d, y. split_and!; [done | done |].
    inversion Hy as [| |a|a y' Hy'| | | |]; subst; [constructor|].
    apply (matches_lit_inv _ _ 44) in Hy' as ->; [|done].
    constructor; [|constructor]. right. by left. }
  intros Hm. inversion Hm as [|a b u v Hu Hv| | | | | |]; subst.
  inversion Hu as [| | | | | |a u1 u2 Hu1 Hu2|]; subst.
  apply Hgroup in Hu1 as (d & q & -> & Hd & Hq).
  inversion Hv as [|a b ws ns Hws Hns| | | | | |]; subst.
  inversion Hns as [|a b n1 s1 Hn1 Hs1| | | | | |]; subst.
  apply (matches_lit_inv _ _ 110) in Hn1 as ->; [|done].
  apply (matches_lit_inv _ _ 115) in Hs1 as ->; [|done].
  exists d, (q ++ u2 ++ ws). split_and!; [|done|].
  - simpl. by rewrite <- !app_assoc.
  - rewrite !Forall_app. split_and!; [done | |].
    + eapply matches_star_Forall; [|done].
      intros x (d' & q' & -> & Hd' & Hq')%Hgroup.
      constructor; [by left | done].
    + eapply matches_star_Forall; [|done].
      intros x (r & -> & Hr%bool_decide_eq_true)%matches_class_inv.
      constructor; [|constructor]. right. by right.
Qed.


(** X5.  A duration match is a part of the line that begins with an ASCII
    digit, goes on with ASCII digits, commas and white space and ends in
    [ns]; it holds no decimal point, so [get_float] builds the runtime
    from its ASCII digits alone and divides by [Pow10(0)]. *)
Theorem duration_match_digits line m :
  match_exp line match_duration_exp = (m, None) →
  (∃ pre post, line = pre ++ m ++ post)
  ∧ (∃ d body, m = d :: body ++ [110; 115]
               ∧ ascii_digit d ∧ Forall duration_rune body)
  ∧ get_float m
    = (fold_left assemble (filter ascii_digit m) 0 / math.Pow10 0)%float.
Proof.
  intros [Hm Hsub]%match_exp_sound. split; [done|].
  destruct (matches_duration_inv m Hm) as (d & body & -> & Hd & Hbody).
  split; [by eauto|].
  assert (Forall (λ r, r ≤ 255 ∧ r ≠ 46) (d :: body ++ [110; 115])) as Hall.
  { constructor; [unfold ascii_digit in Hd; lia|].
    apply Forall_app. split.
    - eapply Forall_impl; [done|]. apply duration_rune_latin1.
    - repeat constructor; lia. }
  rewrite get_float_fold. unfold get_float_folded.
  rewrite filter_IsDigit_latin1
    by (eapply Forall_impl; [exact Hall|]; by intros ? [? _]).
  rewrite digits_after_point_none; [done|].
  intros Hin. rewrite Forall_forall in Hall. by destruct (Hall 46 Hin).
Qed.

Lemma matches_uncertainty_inv m :
  matches match_uncertainty_exp m →
  ∃ u x v, m = u ++ x :: v ++ [37]
           ∧ u ≠ [] ∧ v ≠ []
           ∧ Forall ascii_digit u ∧ Forall ascii_digit v ∧ x ≠ 10.
Proof.
  intros Hm. inversion Hm as [|a b u r1 Hu Hr1| | | | | |]; subst.
  inversion Hr1 as [|a b x r2 Hx Hr2| | | | | |]; subst.
  inversion Hr2 as [|a b v p Hv Hp| | | | | |]; subst.
  apply matches_digits_inv in Hu as [Hu1 Hu2].
  apply matches_digits_inv in Hv as [Hv1 Hv2].
  apply matches_class_inv in Hx as (x' & -> & Hx%negb_true_iff%Z.eqb_neq).
  apply (matches_lit_inv _ _ 37) in Hp as ->; [|done].
  exists u, x', v. done.
Qed.

(** X6.  An uncertainty match is a part of the line made of ASCII digits, one
    rune that is not a newline, ASCII digits and [%].  The dot of the
    pattern is not escaped: when the rune between the digits is a decimal
    point the digits after it are the decimals, and when it is anything
    else that is not a digit the figure is read as a whole number. *)
Theorem uncertainty_match_digits line m :
  match_exp line match_uncertainty_exp = (m, None) →
  (∃ pre post, line = pre ++ m ++ post)
  ∧ ∃ u x v,
      m = u ++ x :: v ++ [37]
      ∧ u ≠ [] ∧ v ≠ []
      ∧ Forall ascii_digit u ∧ Forall ascii_digit v ∧ x ≠ 10
      ∧ (x = 46 →
         get_float m
         = (fold_left assemble (u ++ v) 0
            / math.Pow10 (Z.of_nat (length v)))%float)
      ∧ (IsDigit x = false → x ≠ 46 →
         get_float m = (fold_left assemble (u ++ v) 0 / math.Pow10 0)%float).
Proof.
  intros [Hm Hsub]%match_exp_sound. split; [done|].
  destruct (matches_uncertainty_inv m Hm) as (u & x & v & -> & ? & ? & Hu & Hv & ?).
  exists u, x, v. split_and!; try done.
  - intros ->. rewrite get_float_fold. unfold get_float_folded.
    rewrite digits_after_point_digits by done. simpl.
    rewrite filter_app, filter_cons, decide_False by done.
    rewrite filter_app, !filter_IsDigit_digits by done.
    rewrite filter_cons, decide_False, filter_nil, app_nil_r by done.
    done.
  - intros Hx Hne. rewrite get_float_fold. unfold get_float_folded.
    rewrite digits_after_point_digits by done. simpl. rewrite Hx.
    destruct (Z.eqb_spec x 46); [done|].
    rewrite digits_after_point_digits by done. simpl.
    rewrite filter_app, filter_cons, decide_False by congruence.
    rewrite filter_app, !filter_IsDigit_digits by done.
    rewrite filter_cons, decide_False, filter_nil, app_nil_r by done.
    done.
Qed.

(** ** More on [get_float] and [path] *)

Lemma filter_rune_found_decimal (s : list rune) (st : digits) :
  46 ∈ s → found_decimal (fold_left filter_rune s st) = true.
Proof.
  intros Hin. rewrite filter_rune_fold. simpl.
  apply orb_true_iff. right. apply existsb_exists. exists 46.
  split; [by apply list_elem_of_In | reflexivity].
Qed.

(** X4.  Only the digits and the first decimal point count: any other rune,
    and a decimal point after the first, can be taken out of the text
    without changing the number. *)
Theorem get_float_ignores (s1 s2 : list rune) (r : rune) :
  IsDigit r = false →
  r ≠ 46 ∨ 46 ∈ s1 →
  get_float (s1 ++ r :: s2) = get_float (s1 ++ s2).
Proof.
  intros Hd Hr. unfold get_float. rewrite !fold_left_app. simpl.
  set (st := fold_left filter_rune s1 _).
  assert (filter_rune st r = st) as ->; [|done].
  unfold filter_rune. rewrite Hd.
  destruct (Z.eqb_spec r 46) as [-> | _]; [|done].
  destruct Hr as [? | Hin]; [done|].
  pose proof (filter_rune_found_decimal s1
    {| filtered := []; found_decimal := false; decimal_offset := 0 |} Hin) as Hf.
  fold st in Hf. destruct st. simpl in Hf. by rewrite Hf.
Qed.

Lemma string_app_assoc (a b c : string) : (a +:+ b) +:+ c = a +:+ (b +:+ c).
Proof.
  induction a as [|x a IH]; [done|].
  change (String x ((a +:+ b) +:+ c) = String x (a +:+ (b +:+ c))).
  by rewrite IH.
Qed.

(** X1.  [path] joins its elements with a slash, as [strings.Join] does. *)
Theorem path_join (elements : list string) :
  path elements = String.concat "/" elements.
Proof.
  destruct elements as [|a rest]; [done|].
  assert (fold_left (λ p e, p +:+ "/" +:+ e) rest a
          = String.concat "/" (a :: rest)) as Hfold.
  { revert a. induction rest as [|b rest IH]; intros a; [done|].
    simpl fold_left. rewrite IH.
    destruct rest as [|c rest]; [done|].
    change (String.concat "/" ((a +:+ "/" +:+ b) :: c :: rest))
      with ((a +:+ "/" +:+ b) +:+ "/" +:+ String.concat "/" (c :: rest)).
    change (String.concat "/" (a :: b :: c :: rest))
      with (a +:+ "/" +:+ (b +:+ "/" +:+ String.concat "/" (c :: rest))).
    by rewrite !string_app_assoc. }
  destruct rest as [|b rest]; [done | exact Hfold].
Qed.

(** ** Strings *)

Lemma string_length_app (a b : string) :
  String.length (a +:+ b) = (String.length a + String.length b)%nat.
Proof.
  induction a as [|x a IH]; [done|].
  change (S (String.length (a +:+ b)) = S (String.length a + String.length b)).
  by rewrite IH.
Qed.

Lemma substring_all (s : string) : substring 0 (String.length s) s = s.
Proof. induction s as [|x s IH]; [done|]. simpl. by rewrite IH. Qed.

Lemma substring_app (pre t : string) (n : nat) :
  substring (String.length pre) n (pre +:+ t) = substring 0 n t.
Proof. induction pre as [|x pre IH]; [done | exact IH]. Qed.

Lemma substring_split (s : string) (n : nat) :
  (n ≤ String.length s)%nat →
  s = substring 0 n s +:+ substring n (String.length s - n) s.
Proof.
  revert n. induction s as [|x s IH]; intros [|n] Hn.
  - done.
  - exfalso. change (String.length EmptyString) with 0%nat in Hn. lia.
  - rewrite Nat.sub_0_r, substring_all. done.
  - change (String.length (String x s)) with (S (String.length s)) in *.
    change (String x s
            = String x (substring 0 n s
                        +:+ substring n (String.length s - n) s)).
    rewrite <- IH by lia. done.
Qed.

Lemma HasSuffix_spec (s suffix : string) :
  strings.HasSuffix s suffix = true ↔ ∃ pre, s = pre +:+ suffix.
Proof.
  unfold strings.HasSuffix.
  rewrite andb_true_iff, bool_decide_eq_true, String.eqb_eq. split.
  - intros [Hle Hsub].
    exists (substring 0 (String.length s - String.length suffix) s).
    pose proof (substring_split s (String.length s - String.length suffix))
      as Hs.
    replace (String.length s - (String.length s - String.length suffix))%nat
      with (String.length suffix) in Hs by lia.
    rewrite Hsub in Hs. apply Hs. lia.
  - intros [pre ->]. rewrite string_length_app. split; [lia|].
    replace (String.length pre + String.length suffix - String.length suffix)%nat
      with (String.length pre) by lia.
    by rewrite substring_app, substring_all.
Qed.

Lemma name_le_trans (s1 s2 s3 : string) :
  name_le s1 s2 → name_le s2 s3 → name_le s1 s3.
Proof.
  unfold name_le, String.leb. revert s2 s3.
  induction s1 as [|c1 s1 IH]; intros [|c2 s2] [|c3 s3]; simpl; try done.
  unfold Ascii.compare.
  destruct (N.compare_spec (N_of_ascii c1) (N_of_ascii c2)) as [H12|H12|H12];
  destruct (N.compare_spec (N_of_ascii c2) (N_of_ascii c3)) as [H23|H23|H23];
  destruct (N.compare_spec (N_of_ascii c1) (N_of_ascii c3)) as [H13|H13|H13];
    try done; try lia.
  apply IH.
Qed.

(** ** Listings are sorted and without duplicates *)

Lemma listing_sorted (es : gmap string node) :
  StronglySorted ioutil.by_name
    (merge_sort ioutil.by_name (ioutil.info <$> map_to_list es)).
Proof.
  apply StronglySorted_merge_sort.
  - intros a b c. apply name_le_trans.
  - intros a b. apply String.leb_total.
Qed.

Lemma listing_NoDup (es : gmap string node) :
  NoDup (FileInfo_Name
           <$> merge_sort ioutil.by_name (ioutil.info <$> map_to_list es)).
Proof.
  rewrite merge_sort_Permutation, <- list_fmap_compose.
  apply (NoDup_fmap_2_strong _); [|apply NoDup_map_to_list].
  intros [n1 x1] [n2 x2] H1%elem_of_map_to_list H2%elem_of_map_to_list.
  simpl. intros ->. by simplify_eq.
Qed.

Lemma StronglySorted_filter {A} (R : relation A) (P : A → Prop)
    `{∀ x, Decision (P x)} (l : list A) :
  StronglySorted R l → StronglySorted R (filter P l).
Proof.
  induction 1 as [|x l Hl IH Hx]; [constructor|].
  rewrite filter_cons. destruct (decide (P x)); [|done].
  constructor; [done|].
  apply Forall_forall. intros y [_ Hy]%list_elem_of_filter.
  rewrite Forall_forall in Hx. auto.
Qed.

(** ** Collecting the source files *)

Lemma suffix_bag directory suffix (files : list FileInfo) (bag : list string) :
  fold_left
    (λ bag file,
       if FileInfo_IsDir file then bag
       else if strings.HasSuffix (FileInfo_Name file) suffix
            then bag ++ [directory +:+ "/" +:+ FileInfo_Name file]
            else bag)
    files bag
  = bag ++ (in_directory directory ∘ FileInfo_Name
            <$> filter (λ f, FileInfo_IsDir f = false
                             ∧ strings.HasSuffix (FileInfo_Name f) suffix = true)
                  files).
Proof.
  revert bag. induction files as [|f files IH]; intros bag; simpl.
  - by rewrite app_nil_r.
  - rewrite IH, filter_cons.
    destruct (FileInfo_IsDir f) eqn:Hd.
    + rewrite decide_False; [done|]. by intros [? _].
    + destruct (strings.HasSuffix _ _) eqn:Hs.
      * rewrite decide_True by done. by rewrite <- app_assoc.
      * rewrite decide_False; [done|]. by intros [_ ?].
Qed.

(** X2.  [get_files_by_suffix] on a directory returns the paths
    [directory/name] of its plain files whose name ends in the suffix,
    every one once and in the order of the names; a sub-directory is left
    out whatever its name. *)
Theorem get_files_by_suffix_files directory suffix root perm es :
  os.resolve directory root = Some (Dir perm es) →
  ∃ names,
    get_files_by_suffix directory suffix root
    = (in_directory directory <$> names, None)
    ∧ (∀ name, name ∈ names ↔
         (∃ data, es !! name = Some (File data)) ∧ ∃ pre, name = pre +:+ suffix)
    ∧ NoDup names
    ∧ StronglySorted name_le names.
Proof.
  intros Hdir. unfold get_files_by_suffix.
  rewrite (ReadDir_dir _ _ perm es) by done.
  rewrite suffix_bag. simpl.
  set (files := merge_sort _ _).
  set (P := λ f, FileInfo_IsDir f = false
                 ∧ strings.HasSuffix (FileInfo_Name f) suffix = true).
  exists (FileInfo_Name <$> filter P files).
  split_and!.
  - by rewrite <- list_fmap_compose.
  - intros name. rewrite list_elem_of_fmap. split.
    + intros (f & -> & [[Hd Hs] (n & x & Hx & ->)%elem_of_listing]
                       %list_elem_of_filter).
      simpl in *. apply HasSuffix_spec in Hs.
      destruct x; [eauto | done].
    + intros [[data Hx] Hs%HasSuffix_spec].
      exists (ioutil.info (name, File data)). split; [done|].
      apply list_elem_of_filter. split; [done|].
      apply elem_of_listing. eauto.
  - eapply sublist_NoDup; [apply (listing_NoDup es)|].
    apply fmap_sublist, sublist_filter.
  - apply (StronglySorted_fmap _ ioutil.by_name); [done|].
    apply StronglySorted_filter, listing_sorted.
Qed.

(** The plain files of a directory whose name ends in a suffix, in the
    order of the listing. *)
Lemma listing_by_suffix (es : gmap string node) (suffix : string) :
  let names :=
    FileInfo_Name
      <$> filter (λ f, FileInfo_IsDir f = false
                       ∧ strings.HasSuffix (FileInfo_Name f) suffix = true)
            (merge_sort ioutil.by_name (ioutil.info <$> map_to_list es)) in
  (∀ name, name ∈ names ↔
     (∃ data, es !! name = Some (File data)) ∧ ∃ pre, name = pre +:+ suffix)
  ∧ NoDup names
  ∧ StronglySorted name_le names.
Proof.
  intros names. subst names. split_and!.
  - intros name. rewrite list_elem_of_fmap. split.
    + intros (f & -> & [[Hd Hs] (n & x & Hx & ->)%elem_of_listing]
                       %list_elem_of_filter).
      simpl in *. apply HasSuffix_spec in Hs.
      destruct x; [eauto | done].
    + intros [[data Hx] Hs%HasSuffix_spec].
      exists (ioutil.info (name, File data)). split; [done|].
      apply list_elem_of_filter. split; [done|].
      apply elem_of_listing. eauto.
  - eapply sublist_NoDup; [apply (listing_NoDup es)|].
    apply fmap_sublist, sublist_filter.
  - apply (StronglySorted_fmap _ ioutil.by_name); [done|].
    apply StronglySorted_filter, listing_sorted.
Qed.

(** X3.  With a source file to compile, the compile step runs one process:
    the compiler with [-o binariesDir/name] and then the paths
    [sourceDir/name] of the plain files of the source directory whose
    name ends in [.c], every one once and in the order of the names, in
    the environment of the caller. *)
Theorem compile_with_sources cfg p compiler w b perm es name data :
  heap w !! p = Some b →
  os.resolve (Path b) (fs w) = Some (Dir perm es) →
  es !! name = Some (File data) →
  (∃ pre, name = pre +:+ ".c") →
  ∃ names,
    (∀ n, n ∈ names ↔
       (∃ data', es !! n = Some (File data')) ∧ ∃ pre, n = pre +:+ ".c")
    ∧ NoDup names
    ∧ StronglySorted name_le names
    ∧ compile_benchmark cfg p compiler w
      = Run {| Cmd_Args :=
                 compiler :: "-o" :: (Bin cfg +:+ "/" +:+ Name b)
                 :: (in_directory (Path b) <$> names);
               Cmd_Env := environ w |} w.
Proof.
  intros Hp Hdir Hname Hsuffix.
  destruct (listing_by_suffix es ".c") as (Hin & Hnodup & Hsorted).
  set (names := FileInfo_Name <$> filter _ _) in *.
  exists names. split_and!; [done | done | done |].
  assert (get_files_by_suffix (Path b) ".c" (fs w)
          = (in_directory (Path b) <$> names, None)) as Hfiles.
  { unfold get_files_by_suffix. rewrite (ReadDir_dir _ _ perm es) by done.
    rewrite suffix_bag. simpl. unfold names. by rewrite <- list_fmap_compose. }
  unfold compile_benchmark, bind, load, get_world. rewrite Hp.
  unfold get_compile_command. rewrite Hfiles.
  rewrite bool_decide_eq_false_2; [done|].
  rewrite length_fmap.
  assert (name ∈ names) as Hname' by (apply Hin; eauto).
  destruct names; [by apply elem_of_nil in Hname' | done].
Qed.

(** X13.  The benchmarks come out of discovery in the order of their names. *)
Theorem discovery_in_name_order cfg w ptrs w' :
  Init_Benchmarks cfg w = Some ((ptrs, None), w') →
  ∃ bs, Forall2 (λ p b, heap w' !! p = Some b) ptrs bs
        ∧ StronglySorted name_le (Name <$> bs).
Proof.
  unfold Init_Benchmarks, bind, get_world, ioutil.ReadDir, os.Open.
  destruct (os.resolve (Src cfg) (fs w)) as [[data|perm es]|]; [done| |done].
  set (files := merge_sort _ _).
  destruct (Init_Benchmarks_range_spec cfg files [] w)
    as (new & h' & -> & Hall & _).
  unfold ret. intros [= <- <-].
  exists (discovered cfg ∘ FileInfo_Name
          <$> filter (λ f, FileInfo_IsDir f = true) files).
  split.
  - apply Forall2_fmap_r. eapply Forall2_impl; [exact Hall|]. done.
  - rewrite <- list_fmap_compose.
    apply (StronglySorted_fmap _ ioutil.by_name); [done|].
    apply StronglySorted_filter, listing_sorted.
Qed.

(** ** More on [get_benchmark_results] *)

Lemma take_duration_fold_name (lines : list (list rune)) (b : Benchmark) :
  Name (fold_left take_duration lines b) = Name b
  ∧ Path (fold_left take_duration lines b) = Path b.
Proof.
  revert b. induction lines as [|l lines IH]; intros b; [done|]. simpl.
  destruct (IH (take_duration b l)) as [-> ->]. unfold take_duration.
  by destruct (match_exp l match_duration_exp) as [m [e|]].
Qed.

Lemma read_lines_durations_prefix (pre : list (list rune)) reader b found :
  Forall (λ l, has_duration l = true → has_uncertainty l = false) pre →
  read_lines (((λ l, (l, None)) <$> pre) ++ reader) b found
  = read_lines reader
      (fold_left take_duration (filter (λ l, has_duration l = true) pre) b)
      (found + Z.of_nat (length (filter (λ l, has_duration l = true) pre))).
Proof.
  revert b found. induction pre as [|l pre IH]; intros b found Hall.
  - simpl. by rewrite Z.add_0_r.
  - apply Forall_cons in Hall as [Hl Hall].
    rewrite fmap_cons. simpl app. rewrite filter_cons.
    destruct (has_duration l) eqn:Hd.
    + rewrite decide_True by done.
      rewrite read_lines_duration by auto. rewrite IH by done.
      simpl. f_equal. lia.
    + rewrite decide_False by done.
      rewrite read_lines_skip by auto. by rewrite IH.
Qed.

(** X7.  A line with a duration and no uncertainty ahead of the line with
    both figures spoils the count: the struct receives both figures of
    that line and the call still returns the incomplete-report error. *)
Theorem duration_ahead_spoils_the_count cfg p w b data pre line post md mu :
  heap w !! p = Some b →
  os.Open (report_path cfg b) (fs w) = (Some (File data), None) →
  file_lines data = pre ++ line :: post →
  Forall (λ l, has_duration l = true → has_uncertainty l = false) pre →
  Exists (λ l, has_duration l = true) pre →
  match_exp line match_duration_exp = (md, None) →
  match_exp line match_uncertainty_exp = (mu, None) →
  get_benchmark_results cfg p w
  = Some (Some IncompleteReport,
          with_heap w
            (<[p := {| Name := Name b; Path := Path b;
                       Runtime := get_float md;
                       Uncertainty := get_float mu |}]> (heap w))).
Proof.
  intros Hp Hopen Hsplit Hpre Hex Hd Hu.
  rewrite (get_benchmark_results_file _ _ _ b data) by done.
  unfold file_lines in Hsplit.
  destruct (ReadBytes_reader_of data) as (lines & last & Hr).
  rewrite Hr in *. rewrite reader_of_lines in Hsplit.
  destruct (reader_of_split _ _ _ _ _ Hsplit) as (err & rest & -> & Herr).
  rewrite read_lines_durations_prefix by done.
  set (durations := filter (λ l, has_duration l = true) pre).
  assert (0 < Z.of_nat (length durations)) as Hpos.
  { apply Exists_exists in Hex as (l & Hin & Hl).
    assert (l ∈ durations) as Hl' by by apply list_elem_of_filter.
    destruct durations; [by apply elem_of_nil in Hl' | simpl; lia]. }
  rewrite (read_lines_both _ _ _ _ _ md mu); [|done|done|done|lia].
  destruct (take_duration_fold_name durations b) as [Hn Hpath].
  unfold set_Uncertainty, set_Runtime. simpl. rewrite Hn, Hpath.
  destruct (Z.eqb_spec (0 + Z.of_nat (length durations) + 1 + 1) 2); [lia|].
  done.
Qed.

(** The lines up to the first one that has both figures. *)
Lemma first_with_both (ls : list (list rune)) :
  Forall (λ l, has_duration l = true → has_uncertainty l = false) ls
  ∨ ∃ pre line post,
      ls = pre ++ line :: post
      ∧ Forall (λ l, has_duration l = true → has_uncertainty l = false) pre
      ∧ has_duration line = true ∧ has_uncertainty line = true.
Proof.
  induction ls as [|l ls IH]; [left; constructor|].
  destruct (has_duration l) eqn:Hd, (has_uncertainty l) eqn:Hu.
  { right. exists [], l, ls. split_and!; [done | constructor | done | done]. }
  all: destruct IH as [Hall | (pre & line & post & -> & Hpre & Hline)];
    [ left; constructor; [congruence | done]
    | right; exists (l :: pre), line, post;
      split_and!; [done | constructor; [congruence | done] | tauto | tauto] ].
Qed.

(** X20.  [get_benchmark_results] returns without an error in two cases
    only.  Either the first line of the report with a duration also has
    an uncertainty, and the struct receives the two figures of that line;
    or the report has exactly two lines with a duration, neither of them
    with an uncertainty, and the struct receives the runtime of the
    second and keeps the uncertainty it had. *)
Theorem get_benchmark_results_success cfg p w w' :
  get_benchmark_results cfg p w = Some (None, w') →
  ∃ b data,
    heap w !! p = Some b
    ∧ os.Open (report_path cfg b) (fs w) = (Some (File data), None)
    ∧ ((∃ pre line post md mu,
          file_lines data = pre ++ line :: post
          ∧ Forall (λ l, has_duration l = false) pre
          ∧ match_exp line match_duration_exp = (md, None)
          ∧ match_exp line match_uncertainty_exp = (mu, None)
          ∧ w' = with_heap w
                   (<[p := {| Name := Name b; Path := Path b;
                              Runtime := get_float md;
                              Uncertainty := get_float mu |}]> (heap w)))
       ∨ (∃ l1 l2 m2,
            filter (λ l, has_duration l = true) (file_lines data) = [l1; l2]
            ∧ has_uncertainty l1 = false ∧ has_uncertainty l2 = false
            ∧ match_exp l2 match_duration_exp = (m2, None)
            ∧ w' = with_heap w
                     (<[p := {| Name := Name b; Path := Path b;
                                Runtime := get_float m2;
                                Uncertainty := Uncertainty b |}]> (heap w)))).
Proof.
  intros (b & file & b' & Hp & Hopen & Hl & ->)%get_benchmark_results_ok.
  destruct file as [data|perm es]; [|done].
  exists b, data. split_and!; [done | done |].
  simpl in Hl. unfold file_lines.
  destruct (ReadBytes_reader_of data) as (lines & last & Hr).
  rewrite Hr in *. rewrite reader_of_lines.
  destruct (first_with_both (lines ++ [last]))
    as [Hall | (pre & line & post & Hsplit & Hpre & Hd & Hu)].
  - right. rewrite read_lines_durations in Hl by done.
    injection Hl as <- Hcount.
    destruct (filter _ (lines ++ [last])) as [|l1 [|l2 [|l3 ls]]] eqn:Hf;
      simpl in Hcount; try lia.
    assert (l1 ∈ filter (λ l, has_duration l = true) (lines ++ [last])) as H1
      by (rewrite Hf; left).
    assert (l2 ∈ filter (λ l, has_duration l = true) (lines ++ [last])) as H2
      by (rewrite Hf; right; left).
    apply list_elem_of_filter in H1 as [Hd1 Hin1].
    apply list_elem_of_filter in H2 as [Hd2 Hin2].
    rewrite Forall_forall in Hall.
    pose proof Hd2 as Hm2. unfold has_duration in Hm2.
    apply bool_decide_eq_true in Hm2.
    destruct (match_exp l2 match_duration_exp) as [m2 [e|]] eqn:Hm; [done|].
    exists l1, l2, m2. split_and!; [done | by auto | by auto | done |].
    simpl. by rewrite (take_duration_last _ _ _ m2).
  - left. destruct (reader_of_split _ _ _ _ _ Hsplit)
      as (err & rest & Hreader & Herr).
    rewrite Hreader, read_lines_durations_prefix in Hl by done.
    unfold has_duration in Hd. apply bool_decide_eq_true in Hd.
    destruct (match_exp line match_duration_exp) as [md [e|]] eqn:Hmd; [done|].
    unfold has_uncertainty in Hu. apply bool_decide_eq_true in Hu.
    destruct (match_exp line match_uncertainty_exp) as [mu [e|]] eqn:Hmu;
      [done|].
    rewrite (read_lines_both _ _ _ _ _ md mu) in Hl; [|done|done|done|lia].
    injection Hl as <- Hcount.
    destruct (filter _ pre) as [|l ls] eqn:Hf; [|simpl in Hcount; lia].
    exists pre, line, post, md, mu. split_and!; [done | | done | done | done].
    apply Forall_forall. intros l Hl.
    destruct (has_duration l) eqn:Hdl; [|done].
    assert (l ∈ filter (λ l, has_duration l = true) pre) as Hin
      by by apply list_elem_of_filter.
    rewrite Hf in Hin. by apply elem_of_nil in Hin.
Qed.

Lemma get_benchmark_results_overwrite cfg p w b :
  heap w !! p = Some b →
  ∃ err r u,
    get_benchmark_results cfg p w
    = Some (err, with_heap w (<[p := overwrite r u b]> (heap w))).
Proof.
  intros Hp.
  unfold get_benchmark_results, bind, load, get_world, store, ret.
  rewrite Hp.
  destruct (os.Open _ (fs w)) as [[file|] [e|]] eqn:Hopen.
  - exists (Some e), None, None. rewrite insert_id by by destruct b.
    by destruct w.
  - destruct (read_lines_overwrite (bufio.NewReader
                (path [Stats cfg; Name b +:+ ".txt"]) file) 0)
      as (r & u & found & err & Hl).
    rewrite Hl, Hp. destruct err; [by eauto|].
    destruct (_ =? _); simpl; by eauto.
  - exists (Some e), None, None. rewrite insert_id by by destruct b.
    by destruct w.
  - unfold os.Open in Hopen. by destruct (os.resolve _ _).
Qed.

(** ** Paths into a directory *)

Lemma split_slash_cons (s : string) : ∃ x xs, os.split_slash s = x :: xs.
Proof.
  induction s as [|c s (x & xs & IH)]; simpl; [by eauto|].
  destruct (Ascii.eqb c "/"); [by eauto|]. rewrite IH. eauto.
Qed.

Lemma split_slash_app (a b : string) :
  os.split_slash (a +:+ "/" +:+ b) = os.split_slash a ++ os.split_slash b.
Proof.
  induction a as [|c a IH]; [done|].
  change (String c a +:+ "/" +:+ b) with (String c (a +:+ "/" +:+ b)).
  simpl. rewrite IH. destruct (Ascii.eqb c "/"); [done|].
  by destruct (split_slash_cons a) as (x & xs & ->).
Qed.

Lemma components_app (a b : string) :
  os.components (a +:+ "/" +:+ b) = os.components a ++ os.components b.
Proof. unfold os.components. by rewrite split_slash_app, filter_app. Qed.

Lemma walk_app (xs ys : list string) (n : node) :
  os.walk (xs ++ ys) n = os.walk xs n ≫= os.walk ys.
Proof.
  revert n. induction xs as [|x xs IH]; intros n; [done|]. simpl.
  destruct n as [data|p es]; [done|].
  destruct (es !! x) as [child|]; [apply IH | done].
Qed.

Lemma walk_error_app (xs ys : list string) (n m : node) :
  os.walk xs n = Some m →
  os.walk_error (xs ++ ys) n = os.walk_error ys m.
Proof.
  revert n. induction xs as [|x xs IH]; intros n; simpl.
  - by intros [= ->].
  - destruct n as [data|p es]; [done|].
    destruct (es !! x) as [child|]; [apply IH | done].
Qed.

Lemma walk_error_cases (cs : list string) (n : node) :
  os.walk_error cs n = os.ENOENT ∨ os.walk_error cs n = os.ENOTDIR.
Proof.
  revert n. induction cs as [|c cs IH]; intros n; simpl; [by left|].
  destruct n as [data|p es]; [by right|].
  destruct (es !! c); [apply IH | by left].
Qed.

Lemma no_slash_app (a b : string) :
  no_slash (a +:+ b) = no_slash a && no_slash b.
Proof.
  induction a as [|c a IH]; [done|].
  change (String c a +:+ b) with (String c (a +:+ b)). simpl.
  by rewrite IH, andb_assoc.
Qed.

(** The name of a report is an entry name when the name of the benchmark
    has no separator. *)
Lemma report_file_name (name : string) :
  no_slash name = true → file_name (name +:+ ".txt").
Proof.
  intros Hname. split_and!.
  - by rewrite no_slash_app, Hname.
  - intros H%(f_equal String.length). rewrite string_length_app in H.
    simpl in H. lia.
  - intros H%(f_equal String.length). rewrite string_length_app in H.
    simpl in H. lia.
Qed.

(** Opening the entry [name] of the directory [dir]: the entry when it is
    there, and otherwise an error that tells a missing entry from a
    [dir] that is a plain file. *)
Lemma Open_entry (dir name : string) (root n : node) :
  file_name name →
  os.resolve dir root = Some n →
  os.Open (dir +:+ "/" +:+ name) root
  = match n with
    | Dir _ es =>
        match es !! name with
        | Some x => (Some x, None)
        | None => (None, Some (os.PathError "open" (dir +:+ "/" +:+ name)
                                 os.ENOENT))
        end
    | File _ => (None, Some (os.PathError "open" (dir +:+ "/" +:+ name)
                               os.ENOTDIR))
    end.
Proof.
  intros Hname. unfold os.Open, os.resolve.
  case_bool_decide as Hdir; [done|]. intros Hwalk.
  rewrite bool_decide_eq_false_2 by by destruct dir.
  rewrite components_app, (file_name_components name Hname).
  rewrite walk_app, (walk_error_app _ _ _ n), Hwalk by done. simpl.
  destruct n as [data|perm es]; [done|].
  by destruct (es !! name).
Qed.

(** X8.  Whatever it returns, [get_benchmark_results] changes nothing but the
    runtime and the uncertainty of the struct behind its pointer.  When
    the report cannot be opened or is a directory it returns the error of
    the file system and changes nothing at all: a report that is missing
    from the results directory does not exist, a results directory that
    is a plain file is not a directory, and a directory in the place of
    the report cannot be read. *)
Theorem get_benchmark_results_touches_measurements cfg p w b :
  heap w !! p = Some b →
  (∃ err r u,
     get_benchmark_results cfg p w
     = Some (err, with_heap w (<[p := overwrite r u b]> (heap w))))
  ∧ (os.resolve (report_path cfg b) (fs w) = None →
     ∃ e, (e = os.ENOENT ∨ e = os.ENOTDIR)
          ∧ get_benchmark_results cfg p w
            = Some (Some (os.PathError "open" (report_path cfg b) e), w))
  ∧ (∀ perm es,
       no_slash (Name b) = true →
       os.resolve (Stats cfg) (fs w) = Some (Dir perm es) →
       es !! (Name b +:+ ".txt") = None →
       get_benchmark_results cfg p w
       = Some (Some (os.PathError "open" (report_path cfg b) os.ENOENT), w))
  ∧ (∀ data,
       no_slash (Name b) = true →
       os.resolve (Stats cfg) (fs w) = Some (File data) →
       get_benchmark_results cfg p w
       = Some (Some (os.PathError "open" (report_path cfg b) os.ENOTDIR), w))
  ∧ (∀ perm es,
       os.resolve (report_path cfg b) (fs w) = Some (Dir perm es) →
       get_benchmark_results cfg p w
       = Some (Some (os.PathError "read" (report_path cfg b) os.EISDIR), w)).
Proof.
  intros Hp.
  assert (Hsame : with_heap w (<[p := b]> (heap w)) = w).
  { rewrite insert_id by done. by destruct w. }
  assert (Herr : ∀ e,
    os.Open (report_path cfg b) (fs w) = (None, Some e) →
    get_benchmark_results cfg p w = Some (Some e, w)).
  { intros e He.
    unfold get_benchmark_results, bind, load, get_world, ret.
    rewrite Hp. fold (report_path cfg b). by rewrite He. }
  split_and!.
  - by apply get_benchmark_results_overwrite.
  - intros Hnone. eexists. split; [apply walk_error_cases|].
    apply Herr. unfold os.Open. by rewrite Hnone.
  - intros perm es Hname Hstats Hnone. apply Herr.
    change (report_path cfg b) with (Stats cfg +:+ "/" +:+ (Name b +:+ ".txt")).
    rewrite (Open_entry _ _ _ (Dir perm es)), Hnone;
      [done | by apply report_file_name | done].
  - intros data Hname Hstats. apply Herr.
    change (report_path cfg b) with (Stats cfg +:+ "/" +:+ (Name b +:+ ".txt")).
    rewrite (Open_entry _ _ _ (File data));
      [done | by apply report_file_name | done].
  - intros perm es Hres.
    unfold get_benchmark_results, bind, load, get_world, store, ret, os.Open.
    rewrite Hp. fold (report_path cfg b). rewrite Hres. simpl.
    by rewrite Hp, Hsame.
Qed.

(** ** More on the filter *)

Lemma overwrite_overwrite r u r' u' b :
  overwrite r' u' (overwrite r u b)
  = overwrite (from_option Some r r') (from_option Some u u') b.
Proof. by destruct r, u, r', u', b. Qed.

Lemma Get_Unevaluated_range_frame cfg ptrs acc w res w' :
  Get_Unevaluated_range cfg ptrs acc w = Some (res, w') →
  ∃ h' new,
    w' = with_heap w h'
    ∧ res.1 = acc ++ new
    ∧ new `sublist_of` ptrs
    ∧ (∀ q, q ∉ ptrs → h' !! q = heap w !! q)
    ∧ (∀ q b, heap w !! q = Some b → ∃ r u, h' !! q = Some (overwrite r u b)).
Proof.
  assert (Hnone : ∀ b, overwrite None None b = b) by by intros [].
  revert acc w. induction ptrs as [|p ptrs IH]; intros acc w; simpl.
  { unfold ret. intros [= <- <-]. exists (heap w), [].
    rewrite app_nil_r. split_and!; [by destruct w | done | done | done |].
    intros q b Hq. exists None, None. by rewrite Hnone. }
  unfold bind at 1, load at 1.
  destruct (heap w !! p) as [b|] eqn:Hp; [|done].
  unfold bind at 1, get_world at 1.
  destruct (directory_contains_file _ _ _) as [[|] [e|]].
  - unfold ret. intros [= <- <-]. exists (heap w), [].
    rewrite app_nil_r. split_and!; [by destruct w | done | | done |].
    + apply sublist_nil_l.
    + intros q b' Hq. exists None, None. by rewrite Hnone.
  - unfold bind at 1.
    destruct (get_benchmark_results_overwrite cfg p w b Hp)
      as (err & r & u & Hres).
    rewrite Hres.
    assert (Hstep : ∀ q b0, heap w !! q = Some b0 →
              ∃ r0 u0, <[p := overwrite r u b]> (heap w) !! q
                       = Some (overwrite r0 u0 b0)).
    { intros q b0 Hq. destruct (decide (q = p)) as [-> | Hne].
      - rewrite lookup_insert_eq. simplify_eq. eauto.
      - rewrite lookup_insert_ne by done. exists None, None.
        by rewrite Hnone. }
    destruct err as [e|].
    + unfold ret. intros [= <- <-]. eexists _, []. rewrite app_nil_r.
      split_and!; [done | done | apply sublist_nil_l | | done].
      intros q [Hq _]%not_elem_of_cons. by rewrite lookup_insert_ne.
    + intros (h' & new & -> & Hacc & Hsub & Hout & Hin)%IH.
      exists h', new. split_and!; [done | done | by constructor | |].
      * intros q [Hq Hq']%not_elem_of_cons. rewrite Hout by done.
        simpl. by rewrite lookup_insert_ne.
      * intros q b0 Hq. destruct (Hstep q b0 Hq) as (r0 & u0 & Hq0).
        destruct (Hin q _ Hq0) as (r1 & u1 & ->).
        rewrite overwrite_overwrite. eauto.
  - unfold ret. intros [= <- <-]. exists (heap w), [].
    rewrite app_nil_r. split_and!; [by destruct w | done | | done |].
    + apply sublist_nil_l.
    + intros q b' Hq. exists None, None. by rewrite Hnone.
  - intros (h' & new & -> & Hacc & Hsub & Hout & Hin)%IH.
    exists h', (p :: new). rewrite Hacc, <- app_assoc.
    split_and!; [done | done | by constructor | | done].
    intros q [Hq Hq']%not_elem_of_cons. by apply Hout.
Qed.

(** X9.  Whatever it returns, the filter keeps its hands off everything but
    the measurements of the structs in its list: the returned slice is a
    part of the list in the order of the list, no struct changes its
    name or path, and the files, the processes and the output stay as
    they were. *)
Theorem filter_touches_measurements cfg ptrs w uneval err w' :
  Get_Unevaluated_Benchmarks cfg ptrs w = Some ((uneval, err), w') →
  ∃ h',
    w' = with_heap w h'
    ∧ uneval `sublist_of` ptrs
    ∧ (∀ q, q ∉ ptrs → h' !! q = heap w !! q)
    ∧ (∀ q b, heap w !! q = Some b → ∃ r u, h' !! q = Some (overwrite r u b)).
Proof.
  intros (h' & new & -> & Hacc & Hsub & Hout & Hin)
    %Get_Unevaluated_range_frame.
  simpl in Hacc. subst. eauto 10.
Qed.

Lemma Get_Unevaluated_range_app cfg pre rest acc w acc' w1 :
  Get_Unevaluated_range cfg pre acc w = Some ((acc', None), w1) →
  Get_Unevaluated_range cfg (pre ++ rest) acc w
  = Get_Unevaluated_range cfg rest acc' w1.
Proof.
  revert acc w. induction pre as [|p pre IH]; intros acc w; simpl.
  { unfold ret. by intros [= <- <-]. }
  unfold bind, load, get_world.
  destruct (heap w !! p) as [b|]; [|done].
  destruct (directory_contains_file _ _ _) as [[|] [e|]]; try done.
  - destruct (get_benchmark_results cfg p w) as [[[e|] w0]|]; try done.
    apply IH.
  - apply IH.
Qed.

(** X10.  A cached report that cannot be read or is incomplete ends the
    filtering: the error is returned with the benchmarks found so far,
    and the benchmarks after it are not looked at. *)
Theorem bad_report_ends_filtering cfg pre p post w uneval w1 b perm es e w2 :
  Get_Unevaluated_Benchmarks cfg pre w = Some ((uneval, None), w1) →
  heap w1 !! p = Some b →
  os.resolve (Stats cfg) (fs w1) = Some (Dir perm es) →
  is_Some (es !! (Name b +:+ ".txt")) →
  get_benchmark_results cfg p w1 = Some (Some e, w2) →
  Get_Unevaluated_Benchmarks cfg (pre ++ p :: post) w
  = Some ((uneval, Some ("Unable to read results: " +:+ e)), w2).
Proof.
  intros Hpre Hp Hstats Hes Hres. unfold Get_Unevaluated_Benchmarks in *.
  rewrite (Get_Unevaluated_range_app _ _ _ _ _ _ _ Hpre). simpl.
  unfold bind, load, get_world. rewrite Hp.
  rewrite (directory_contains_file_dir _ _ _ perm es) by done.
  rewrite bool_decide_eq_true_2 by done. by rewrite Hres.
Qed.

(** ** Running [Init_Env] again *)

Lemma components_no_slash (s c : string) :
  c ∈ os.components s → no_slash c = true.
Proof.
  unfold os.components. intros [_ Hin]%list_elem_of_filter.
  by eapply split_slash_no_slash.
Qed.

Lemma make_if_needed_present d w :
  is_Some (entry d (fs w)) → make_if_needed d w = Some (None, w).
Proof.
  intros Hd. unfold make_if_needed, bind, get_world.
  rewrite probe_working_directory.
  destruct (fs w) as [data|p es]; [by destruct Hd|]. simpl in Hd.
  by rewrite bool_decide_eq_true_2.
Qed.

Lemma present_entry d w w' :
  file_name d → present d w w' → is_Some (entry d (fs w')).
Proof.
  intros Hd. unfold present.
  destruct (entry d (fs w)); [by intros (n' & -> & _)|]. intros [es Hres].
  unfold os.resolve in Hres. destruct Hd as (Hs & Hne & Hdot).
  rewrite bool_decide_eq_false_2 in Hres by done.
  rewrite file_name_components in Hres by done.
  destruct (fs w') as [data|p fs']; [done|]. simpl in *.
  destruct (fs' !! d); [by eauto | done].
Qed.

(** X11.  With entry names for the two directories, [Init_Env] is idempotent:
    after it has succeeded, another call succeeds and changes nothing. *)
Theorem Init_Env_again cfg w w' :
  file_name (Stats cfg) → file_name (Bin cfg) →
  Init_Env cfg w = Some (None, w') →
  Init_Env cfg w' = Some (None, w').
Proof.
  intros Hs Hb [Hstats Hbin]%Init_Env_present.
  rewrite Init_Env_steps.
  rewrite make_if_needed_present by by eapply present_entry.
  by rewrite make_if_needed_present by by eapply present_entry.
Qed.

Lemma mkdir_at_exists cs new n x :
  is_dir n = true → os.walk cs n = Some x →
  os.mkdir_at cs new n = inr os.EEXIST.
Proof.
  revert n. induction cs as [|c cs IH]; intros [data|p es] Hn; try done.
  destruct cs as [|c' cs].
  - simpl. by destruct (es !! c).
  - intros Hw. rewrite mkdir_at_cons.
    change (os.walk (c :: c' :: cs) (Dir p es))
      with (es !! c ≫= os.walk (c' :: cs)) in Hw.
    destruct (es !! c) as [child|]; [|done].
    change (os.walk (c' :: cs) child = Some x) in Hw.
    rewrite (IH child); [done | | done].
    by destruct child.
Qed.

Lemma mkdir_at_is_dir cs new n n' :
  os.mkdir_at cs new n = inl n' → is_dir n' = true.
Proof.
  destruct n as [data|p es]; [by destruct cs|].
  destruct cs as [|c [|c' cs]]; [done| |rewrite mkdir_at_cons].
  - simpl. destruct (es !! c); [done|]. by intros [= <-].
  - destruct (es !! c) as [child|]; [|done].
    destruct (os.mkdir_at _ _ child); [|done]. by intros [= <-].
Qed.

(** X12.  A results directory given as a path with a separator is made by the
    first call and makes every later call fail: the probe looks for an
    entry of that very name in the working directory, finds none, and
    [Mkdir] reports that the directory exists. *)
Theorem Init_Env_again_with_separator cfg w w' :
  no_slash (Stats cfg) = false →
  entry (Stats cfg) (fs w) = None →
  Init_Env cfg w = Some (None, w') →
  Init_Env cfg w'
  = Some (Some (os.PathError "mkdir" (Stats cfg) os.EEXIST), w').
Proof.
  intros Hslash Hentry. rewrite Init_Env_steps.
  destruct (make_if_needed (Stats cfg) w) as [[[e|] w1]|] eqn:H1; try done.
  intros H2.
  apply make_if_needed_ok in H1 as [[Hs _] | (_ & Hne & root1 & Hm1 & ->)];
    [rewrite Hentry in Hs; by destruct Hs|].
  assert (Hfresh : ∀ cs new n n',
    (∀ c, c ∈ cs → no_slash c = true) →
    os.mkdir_at cs new n = inl n' →
    entry (Stats cfg) n = None → entry (Stats cfg) n' = None).
  { intros cs new n n' Hcs Hm Hn.
    destruct (entry (Stats cfg) n') as [x|] eqn:Hx; [|done].
    destruct (mkdir_at_new_entry _ _ _ _ _ _ Hm Hn Hx) as [Hin _].
    apply Hcs in Hin. congruence. }
  assert (entry (Stats cfg) root1 = None) as Hentry1.
  { eapply Hfresh; [|exact Hm1|done]. intros c. apply components_no_slash. }
  pose proof (mkdir_at_walk _ _ _ _ Hm1) as Hwalk1.
  assert (entry (Stats cfg) (fs w') = None ∧ is_dir (fs w') = true
          ∧ (∃ x, os.walk (os.components (Stats cfg)) (fs w') = Some x)
          ∧ umask w' = umask w)
    as (Hentry' & Hdir' & [x Hwalk'] & Humask).
  { apply make_if_needed_ok in H2
      as [[_ ->] | (_ & _ & root2 & Hm2 & ->)]; simpl in *.
    - split_and!; [done | by eapply mkdir_at_is_dir | by eauto | done].
    - split_and!; [| by eapply mkdir_at_is_dir | | done].
      + eapply Hfresh; [|exact Hm2|done]. intros c. apply components_no_slash.
      + destruct (mkdir_at_keeps _ _ _ _ _ _ _ Hm2 Hwalk1) as [es' ?]. eauto. }
  rewrite Init_Env_steps.
  unfold make_if_needed, bind, get_world. rewrite probe_working_directory.
  destruct (fs w') as [data|p es] eqn:Hfs; [done|]. simpl in Hentry'.
  rewrite bool_decide_eq_false_2 by (rewrite Hentry'; by intros [? ?]).
  simpl. unfold os.Mkdir. rewrite bool_decide_eq_false_2 by done.
  rewrite Hfs. by rewrite (mkdir_at_exists _ _ _ x).
Qed.

(** ** More on [Evaluate_Benchmark] *)

Lemma compile_benchmark_outcome cfg p compiler w b err w' :
  heap w !! p = Some b →
  compile_benchmark cfg p compiler w = Some (err, w') →
  (w' = w ∧ is_Some err)
  ∨ (∃ sources root',
       sources ≠ []
       ∧ w' = with_spawned (with_fs w root')
                (spawned w ++ [compile_command cfg b compiler sources
                                 (environ w)])).
Proof.
  intros Hp. unfold compile_benchmark, bind, load, get_world. rewrite Hp.
  unfold get_compile_command.
  destruct (get_files_by_suffix _ _ _) as [sources [e|]].
  - unfold ret. intros [= <- <-]. left. eauto.
  - case_bool_decide as Hlen.
    + unfold ret. intros [= <- <-]. left. eauto.
    + unfold Run. destruct (run_process _ _) as [root' e].
      intros [= <- <-]. right. exists sources, root'. split; [|done].
      by intros ->.
Qed.

Lemma evaluate_benchmark_outcome cfg p repeats w b w' :
  heap w !! p = Some b →
  evaluate_benchmark p cfg repeats w = Some (None, w') →
  ∃ root',
    run_process (perf_command cfg b repeats (environ w)) w = (root', None)
    ∧ w' = with_spawned (with_fs w root')
             (spawned w ++ [perf_command cfg b repeats (environ w)]).
Proof.
  intros Hp. unfold evaluate_benchmark, bind, load, get_world. rewrite Hp.
  destruct (directory_contains_file _ _ _) as [[|] [e|]]; try done.
  unfold Run. fold (report_path cfg b).
  fold (perf_command cfg b repeats (environ w)).
  destruct (run_process _ _) as [root' [e|]]; [done|].
  intros [= <-]. eauto.
Qed.

(** X14.  When [Evaluate_Benchmark] returns without an error, the measurement
    command was the last process run, after at most one run of the
    compile command, and the struct holds what the loop of
    [get_benchmark_results] made of it, with a count of 2 at its end,
    from the report as it is in the results directory afterwards. *)
Theorem Evaluate_Benchmark_done compiler cfg repeats p w b w' :
  heap w !! p = Some b →
  Evaluate_Benchmark compiler cfg repeats p w = Some (None, w') →
  ∃ file b' cmds,
    os.Open (report_path cfg b) (fs w') = (Some file, None)
    ∧ read_lines (bufio.NewReader (report_path cfg b) file) b 0 = (b', 2, None)
    ∧ heap w' = <[p := b']> (heap w)
    ∧ spawned w'
      = spawned w ++ cmds ++ [perf_command cfg b repeats (environ w)]
    ∧ (cmds = []
       ∨ ∃ sources,
           sources ≠ []
           ∧ cmds = [compile_command cfg b compiler sources (environ w)]).
Proof.
  intros Hp.
  assert (Hrest : ∀ w1 w2,
    evaluate_benchmark p cfg repeats w1 = Some (None, w2) →
    ∀ cmds, heap w1 = heap w → environ w1 = environ w →
    spawned w1 = spawned w ++ cmds →
    ∀ out, get_benchmark_results cfg p (with_stdout w2 out) = Some (None, w') →
    ∃ file b' cmds',
      os.Open (report_path cfg b) (fs w') = (Some file, None)
      ∧ read_lines (bufio.NewReader (report_path cfg b) file) b 0
        = (b', 2, None)
      ∧ heap w' = <[p := b']> (heap w)
      ∧ spawned w'
        = spawned w ++ cmds' ++ [perf_command cfg b repeats (environ w)]
      ∧ cmds' = cmds).
  { intros w1 w2 Hev cmds Hheap Henv Hsp out Hres.
    apply (evaluate_benchmark_outcome _ _ _ _ b) in Hev
      as (root' & _ & ->); [|by rewrite Hheap].
    apply get_benchmark_results_ok in Hres
      as (b1 & file & b' & Hb1 & Hopen & Hl & ->).
    simpl in *. rewrite Hheap in Hb1. simplify_eq.
    exists file, b', cmds. rewrite Hsp, Henv, Hheap, <- app_assoc. done. }
  unfold Evaluate_Benchmark, bind at 1 2. unfold load at 1, get_world at 1.
  rewrite Hp.
  destruct (directory_contains_file _ _ _) as [[|] [e|]]; try done.
  - simpl negb. cbv iota.
    unfold bind at 1, ret at 1. unfold bind at 1, fmt_Print at 1.
    unfold bind at 1, fmt_Print at 1. unfold bind at 1.
    destruct (evaluate_benchmark _ _ _ _) as [[[e|] w2]|] eqn:Hev; try done.
    unfold bind at 1, fmt_Print at 1. unfold bind at 1.
    destruct (get_benchmark_results _ _ _) as [[[e|] w3]|] eqn:Hres; try done.
    unfold ret. intros [= ->].
    destruct (Hrest _ _ Hev [] eq_refl eq_refl (eq_sym (app_nil_r _)) _ Hres)
      as (file & b' & cmds' & ? & ? & ? & ? & ->).
    exists file, b', []. split_and!; [done..|]. by left.
  - simpl negb. cbv iota.
    unfold bind at 1. unfold bind at 1, fmt_Print at 1.
    destruct (compile_benchmark _ _ _ _) as [[[e|] w1]|] eqn:Hc; try done.
    apply (compile_benchmark_outcome _ _ _ _ b) in Hc
      as [[_ [? [=]]] | (sources & root1 & Hcc & ->)]; [|done].
    unfold bind at 1, fmt_Print at 1.
    unfold bind at 1, fmt_Print at 1. unfold bind at 1.
    destruct (evaluate_benchmark _ _ _ _) as [[[e|] w2]|] eqn:Hev; try done.
    unfold bind at 1, fmt_Print at 1. unfold bind at 1.
    destruct (get_benchmark_results _ _ _) as [[[e|] w3]|] eqn:Hres; try done.
    unfold ret. intros [= ->].
    destruct (Hrest _ _ Hev [_] eq_refl eq_refl eq_refl _ Hres)
      as (file & b' & cmds' & ? & ? & ? & ? & ->).
    eexists file, b', [_]. split_and!; [done..|]. right. eauto.
Qed.

(** X15.  A compile step that fails ends the evaluation of the benchmark: the
    error is returned as a compile problem, the measurement is not
    attempted (no process is run, or the compile command and nothing
    else) and the struct is as it was. *)
Theorem failed_compile_ends_evaluation compiler cfg repeats p w b perm es e w1 :
  heap w !! p = Some b →
  os.resolve (Bin cfg) (fs w) = Some (Dir perm es) →
  es !! Name b = None →
  compile_benchmark cfg p compiler
    (with_stdout w (stdout w ++ [compiling_line b])) = Some (Some e, w1) →
  Evaluate_Benchmark compiler cfg repeats p w
  = Some (Some ("Problem compiling benchmark: " +:+ e), w1)
  ∧ heap w1 = heap w
  ∧ (spawned w1 = spawned w
     ∨ ∃ sources,
         sources ≠ []
         ∧ spawned w1
           = spawned w ++ [compile_command cfg b compiler sources (environ w)]).
Proof.
  intros Hp Hdir Hnone Hc. split_and!.
  - unfold Evaluate_Benchmark, bind at 1 2. unfold load at 1, get_world at 1.
    rewrite Hp.
    rewrite (directory_contains_file_dir _ _ _ perm es) by done.
    rewrite Hnone, bool_decide_eq_false_2 by by intros [? ?].
    simpl negb. cbv iota.
    unfold bind at 1. unfold bind at 1, fmt_Print at 1.
    fold (compiling_line b). by rewrite Hc.
  - apply (compile_benchmark_outcome _ _ _ _ b) in Hc
      as [[-> _] | (sources & root1 & _ & ->)]; done.
  - apply (compile_benchmark_outcome _ _ _ _ b) in Hc
      as [[-> _] | (sources & root1 & Hcc & ->)]; [by left | | done].
    right. by exists sources.
Qed.

(** ** [main] *)

Lemma main_print_rows (ptrs : list loc) w :
  Forall (λ p, is_Some (heap w !! p)) ptrs →
  main_print ptrs w
  = Some (tt, with_stdout w (stdout w ++ rows (heap w) ptrs))
  ∧ length (rows (heap w) ptrs) = length ptrs.
Proof.
  revert w. induction ptrs as [|p ptrs IH]; intros w Hall.
  - simpl. rewrite app_nil_r. split; [by destruct w | done].
  - apply Forall_cons in Hall as [[b Hb] Hall].
    simpl main_print. unfold bind at 1, load at 1. rewrite Hb.
    unfold bind at 1, fmt_Print at 1.
    destruct (IH (with_stdout w (stdout w
                ++ [Sprintf_row (Name b) (Runtime b) (Uncertainty b)])))
      as [-> Hlen]; [done|].
    unfold rows in *. simpl in *. rewrite Hb. simpl.
    rewrite <- app_assoc. split; [done | f_equal; exact Hlen].
Qed.

Lemma make_if_needed_frame d w err w' :
  make_if_needed d w = Some (err, w') → ∃ root', w' = with_fs w root'.
Proof.
  unfold make_if_needed, bind, get_world, ret, os.Mkdir.
  assert (w = with_fs w (fs w)) as Hw by by destruct w.
  destruct (directory_contains_file _ _ _) as [[|] [e|]].
  - intros [= <- <-]. eauto.
  - intros [= <- <-]. eauto.
  - intros [= <- <-]. eauto.
  - simpl. case_bool_decide; [intros [= <- <-]; by eauto|].
    destruct (os.mkdir_at _ _ _); intros [= <- <-]; eauto.
Qed.

Lemma Init_Env_frame cfg w err w' :
  Init_Env cfg w = Some (err, w') → ∃ root', w' = with_fs w root'.
Proof.
  rewrite Init_Env_steps.
  destruct (make_if_needed (Stats cfg) w) as [[[e|] w1]|] eqn:H1; try done.
  - intros [= <- <-]. by eapply make_if_needed_frame.
  - apply make_if_needed_frame in H1 as [root1 ->].
    intros [root2 ->]%make_if_needed_frame. eauto.
Qed.

(** X16.  When every benchmark that discovery finds has a report that parses,
    [main] runs no process: it prints one row for every benchmark, in
    the order of discovery, and ends with status 0. *)
Theorem main_from_cache w w1 bs w2 w3 :
  Init_Env main_cfg w = Some (None, w1) →
  Init_Benchmarks main_cfg w1 = Some ((bs, None), w2) →
  Get_Unevaluated_Benchmarks main_cfg bs w2 = Some (([], None), w3) →
  main w = Some (0, with_stdout w3 (stdout w ++ rows (heap w3) bs))
  ∧ length (rows (heap w3) bs) = length bs
  ∧ spawned w3 = spawned w.
Proof.
  intros Henv Hinit Hfilter.
  assert (∃ root1 h3,
            w3 = with_heap (with_fs w root1) h3
            ∧ Forall (λ p, is_Some (h3 !! p)) bs)
    as (root1 & h3 & -> & Hvalid).
  { destruct (Init_Env_frame _ _ _ _ Henv) as [root1 ->].
    revert Hinit Hfilter.
    unfold Init_Benchmarks, bind, get_world.
    destruct (ioutil.ReadDir _ _) as [files [e|]]; [done|].
    destruct (Init_Benchmarks_range_spec main_cfg files [] (with_fs w root1))
      as (new & h2 & -> & Hall & _).
    unfold ret. intros [= <- <-] Hfilter.
    apply Get_Unevaluated_range_frame in Hfilter
      as (h3 & _ & -> & _ & _ & _ & Hkeep).
    exists root1, h3. split; [done|].
    apply Forall_forall. intros q Hq.
    apply list_elem_of_lookup in Hq as [i Hi].
    destruct (Forall2_lookup_l _ _ _ _ _ Hall Hi) as (f & _ & Hf).
    destruct (Hkeep q _ Hf) as (r & u & ->). eauto. }
  destruct (main_print_rows bs (with_heap (with_fs w root1) h3) Hvalid)
    as [Hprint Hlen].
  split_and!; [|done|done].
  unfold main, bind. fold main_cfg. rewrite Henv, Hinit, Hfilter.
  simpl. unfold ret at 1. unfold bind. rewrite Hprint. done.
Qed.

Lemma main_evaluate_app cfg pre rest w w1 :
  main_evaluate cfg pre w = Some (None, w1) →
  main_evaluate cfg (pre ++ rest) w = main_evaluate cfg rest w1.
Proof.
  revert w. induction pre as [|p pre IH]; intros w; simpl.
  { unfold ret. by intros [= <-]. }
  unfold bind.
  destruct (Evaluate_Benchmark _ _ _ _ _) as [[[e|] w0]|]; try done.
  apply IH.
Qed.

(** X17.  [main] fails fast: the first benchmark whose evaluation fails ends
    the run with status 1 and its error on the standard error stream;
    the benchmarks after it are not evaluated and no row is printed. *)
Theorem main_fails_fast w w1 bs w2 pre p post w3 w4 e w5 :
  Init_Env main_cfg w = Some (None, w1) →
  Init_Benchmarks main_cfg w1 = Some ((bs, None), w2) →
  Get_Unevaluated_Benchmarks main_cfg bs w2
  = Some ((pre ++ p :: post, None), w3) →
  main_evaluate main_cfg pre w3 = Some (None, w4) →
  Evaluate_Benchmark "cc" main_cfg 10 p w4 = Some (Some e, w5) →
  main w = Some (1, with_stderr w5 (stderr w5 ++ [e])).
Proof.
  intros Henv Hinit Hfilter Hpre Hp.
  unfold main, bind. fold main_cfg. rewrite Henv, Hinit, Hfilter.
  rewrite (main_evaluate_app _ _ _ _ _ Hpre). simpl.
  unfold bind. by rewrite Hp.
Qed.

(** X18.  The probe answers [true] exactly when the directory can be listed
    and has an entry of exactly that name, whatever its kind, and fails
    exactly when the path does not lead to a directory. *)
Theorem directory_contains_file_answers name directory root :
  (directory_contains_file name directory root = (true, None)
   ↔ ∃ perm es n, os.resolve directory root = Some (Dir perm es)
                  ∧ es !! name = Some n)
  ∧ ((directory_contains_file name directory root).2 = None
     ↔ ∃ perm es, os.resolve directory root = Some (Dir perm es)).
Proof.
  destruct (os.resolve directory root) as [[data|perm es]|] eqn:Hres.
  - assert (directory_contains_file name directory root
            = (false, Some (os.PathError "readdirent" directory os.ENOTDIR)))
      as ->.
    { unfold directory_contains_file, ioutil.ReadDir, os.Open. by rewrite Hres. }
    split; (split; [done|]).
    + by intros (? & ? & ? & [=] & ?).
    + by intros (? & ? & [=]).
  - rewrite (directory_contains_file_dir _ _ _ perm es) by done. split.
    + split.
      * intros [= [n Hn]%bool_decide_eq_true]. eauto.
      * intros (? & ? & n & [= <- <-] & Hn).
        by rewrite bool_decide_eq_true_2 by eauto.
    + split; [by eauto | done].
  - assert (directory_contains_file name directory root
            = (false, Some (os.PathError "open" directory
                              (os.walk_error (os.components directory) root))))
      as ->.
    { unfold directory_contains_file, ioutil.ReadDir, os.Open. by rewrite Hres. }
    split; (split; [done|]).
    + by intros (? & ? & ? & [=] & ?).
    + by intros (? & ? & [=]).
Qed.

End Benchmark.

(** * The properties on the example host *)



(** C1 as stated fails: with the duration on one line and the
    uncertainty on another, and no other line matching, the parser
    reports an incomplete report, whichever of the two comes first. *)
Lemma figures_on_two_lines_are_incomplete :
  (has_duration <$> file_lines duration_first) = [true; false; false]
  ∧ (has_uncertainty <$> file_lines duration_first) = [false; true; false]
  ∧ (has_duration <$> file_lines uncertainty_first) = [false; true; false]
  ∧ (has_uncertainty <$> file_lines uncertainty_first) = [true; false; false]
  ∧ fst <$> get_benchmark_results Nd dirs 1%positive
                (host (with_report duration_first))
    = Some (Some IncompleteReport)
  ∧ fst <$> get_benchmark_results Nd dirs 1%positive
                (host (with_report uncertainty_first))
    = Some (Some IncompleteReport).
Proof. repeat split; vm_compute; reflexivity. Qed.

Lemma report_figures_on_one_line_witness :
  get_benchmark_results Nd dirs 1%positive (host (with_report perf_report))
  = Some (None,
          with_heap (host (with_report perf_report))
            (<[1%positive := {| Name := "add"; Path := "src/add";
                                Runtime := 1234567;
                                Uncertainty := 0x1.b99999999999ap+1 |}]>
               (heap (host (with_report perf_report))))).
Proof.
  refine (report_figures_on_one_line Nd dirs 1%positive
            (host (with_report perf_report)) add perf_report
            (take 2 (file_lines perf_report))
            (runes "         1,234,567 ns   duration_time    ( +-  3.45% )"
             ++ [10])
            (drop 3 (file_lines perf_report))
            (runes "1,234,567 ns") (runes "3.45%") _ _ _ _ _ _).
  - reflexivity.
  - vm_compute. reflexivity.
  - vm_compute. reflexivity.
  - vm_compute. repeat constructor.
  - vm_compute. reflexivity.
  - vm_compute. reflexivity.
Defined.

(** C2 on the code: two lines with a duration and none with an
    uncertainty pass for a complete report, and the uncertainty stays at
    its default. *)
Lemma two_durations_pass_for_complete :
  (has_uncertainty <$> file_lines two_durations) = [false; false; false]
  ∧ struct_after
      (get_benchmark_results Nd dirs 1%positive (host (with_report two_durations)))
      1%positive
    = Some (None, Some {| Name := "add"; Path := "src/add";
                          Runtime := 2; Uncertainty := 0 |}).
Proof. split; vm_compute; reflexivity. Qed.

(** C4 as stated fails: [Init_Env] succeeds in an empty working
    directory and the source root is not there afterwards; the two
    directories it made have mode 0755 under umask 022. *)
Lemma Init_Env_leaves_the_source_root_out :
  ∃ w', Init_Env dirs (host (Dir 493 ∅)) = Some (None, w')
        ∧ os.resolve (Src dirs) (fs w') = None
        ∧ os.resolve (Stats dirs) (fs w') = Some (Dir 493 ∅)
        ∧ os.resolve (Bin dirs) (fs w') = Some (Dir 493 ∅).
Proof.
  eexists. split; [vm_compute; reflexivity|].
  repeat split; vm_compute; reflexivity.
Qed.

(** A plain file [stats] is left as it is and [bin] is made beside it. *)
Lemma Init_Env_results_and_binaries_witness :
  (∃ w1,
     in_place "stats" (host (Dir 493 {[ "stats" := File [] ]})) w1
     ∧ in_place "bin" w1
         (host (Dir 493 {[ "stats" := File []; "bin" := Dir 493 ∅ ]})))
  ∧ present "stats" (host (Dir 493 {[ "stats" := File [] ]}))
      (host (Dir 493 {[ "stats" := File []; "bin" := Dir 493 ∅ ]}))
  ∧ present "bin" (host (Dir 493 {[ "stats" := File [] ]}))
      (host (Dir 493 {[ "stats" := File []; "bin" := Dir 493 ∅ ]})).
Proof.
  apply (proj1 (Init_Env_results_and_binaries Nd no_tools name_row dirs
                  (host (Dir 493 {[ "stats" := File [] ]})))).
  vm_compute. reflexivity.
Defined.

Lemma compile_without_sources_witness :
  get_compile_command "cc" "add" "src/add" "bin" tree = (None, Some NoSourceFiles)
  ∧ compile_benchmark no_tools dirs 1%positive "cc" (host tree)
    = Some (Some NoSourceFiles, host tree).
Proof.
  refine (compile_without_sources no_tools dirs 1%positive "cc" (host tree) add
            493 {[ "README.md" := File []; "old.c" := Dir 493 ∅ ]} _ _ _).
  - reflexivity.
  - vm_compute. reflexivity.
  - apply (bool_decide_unpack _). vm_compute. exact I.
Defined.

Lemma evaluate_without_executable_witness :
  evaluate_benchmark no_tools 1%positive dirs 10
    (host (Dir 493 {[ "bin" := Dir 493 ∅ ]}))
  = Some (Some (ExecutableNotFound "add" "bin"),
          host (Dir 493 {[ "bin" := Dir 493 ∅ ]})).
Proof.
  refine (evaluate_without_executable no_tools dirs 1%positive 10
            (host (Dir 493 {[ "bin" := Dir 493 ∅ ]})) add 493 ∅ _ _ _).
  - reflexivity.
  - vm_compute. reflexivity.
  - reflexivity.
Defined.

Lemma incomplete_report_keeps_runtime_witness :
  ∃ b' line m,
    heap (with_heap (host (with_report duration_first)) {[1%positive := timed]})
      !! 1%positive = Some b'
    ∧ line ∈ file_lines duration_first
    ∧ match_exp line match_duration_exp = (m, None)
    ∧ Runtime b' = get_float Nd m.
Proof.
  refine (incomplete_report_keeps_runtime Nd dirs 1%positive
            (host (with_report duration_first)) _ add duration_first _ _ _ _).
  - reflexivity.
  - vm_compute. reflexivity.
  - vm_compute. reflexivity.
  - apply Exists_exists. exists (runes "1,234,567 ns" ++ [10]).
    split; vm_compute; [left | reflexivity].
Defined.

Lemma any_entry_passes_for_executable_witness :
  directory_contains_file "add" "bin" tree = (true, None)
  ∧ evaluate_benchmark no_tools 1%positive dirs 10 (host tree)
    = Run no_tools (perf_command dirs add 10 (environ (host tree))) (host tree)
  ∧ ∃ err w' out,
      Evaluate_Benchmark Nd no_tools "cc" dirs 10 1%positive (host tree)
      = Some (err, w')
      ∧ spawned w'
        = spawned (host tree) ++ [perf_command dirs add 10 (environ (host tree))]
      ∧ stdout w'
        = stdout (host tree)
          ++ ["- Success" +:+ newline;
              "Evaluating benchmark " +:+ dquote +:+ "add" +:+ dquote
                +:+ "..." +:+ newline]
          ++ out.
Proof.
  refine (any_entry_passes_for_executable Nd no_tools "cc" dirs 1%positive 10
            (host tree) add 493 {[ "add" := Dir 493 ∅ ]} (Dir 493 ∅) _ _ _).
  - reflexivity.
  - vm_compute. reflexivity.
  - reflexivity.
Defined.

Lemma discovery_of_subdirectories_witness :
  ∃ ptrs h' bs,
    Init_Benchmarks dirs (host suite)
    = Some ((ptrs, None), with_heap (host suite) h')
    ∧ Forall2 (λ p b, h' !! p = Some b) ptrs bs
    ∧ NoDup (Name <$> bs)
    ∧ add ∈ bs ∧ fft ∈ bs ∧ md5 ∈ bs
    ∧ "notes.txt"%string ∉ Name <$> bs.
Proof.
  destruct (discovery_of_subdirectories dirs (host suite) 493
              {[ "md5" := Dir 493 {[ "md5.c" := File [] ]};
                 "add" := Dir 493 ∅;
                 "fft" := Dir 493 {[ "old" := Dir 493 ∅ ]};
                 "notes.txt" := File [] ]})
    as (ptrs & h' & bs & Hrun & Hptrs & _ & _ & _ & Hnodup & Hnames & Hall).
  { vm_compute. reflexivity. }
  assert (Hin : ∀ b : Benchmark,
    (∃ perm' es',
       ({[ "md5" := Dir 493 {[ "md5.c" := File [] ]};
           "add" := Dir 493 ∅;
           "fft" := Dir 493 {[ "old" := Dir 493 ∅ ]};
           "notes.txt" := File [] ]} : gmap string node) !! Name b
       = Some (Dir perm' es')) →
    Path b = ("src" +:+ "/" +:+ Name b)%string →
    Runtime b = 0%float → Uncertainty b = 0%float → b ∈ bs).
  { intros b Hb Hpath Hr Hu.
    apply Hnames, list_elem_of_fmap in Hb as (b' & Hname & Hb').
    rewrite Forall_forall in Hall.
    destruct (Hall b' Hb') as (Hpath' & Hr' & Hu').
    replace b with b'; [done|].
    destruct b, b'. simpl in *. congruence. }
  exists ptrs, h', bs. split_and!; [done | done | done | | | |].
  - apply Hin; [by eexists _, _| done..].
  - apply Hin; [by eexists _, _| done..].
  - apply Hin; [by eexists _, _| done..].
  - intros (perm' & es' & H)%Hnames. vm_compute in H. discriminate.
Defined.

(** [add] has a report and [fft] has none. *)
Lemma unevaluated_iff_no_report_witness :
  fs (with_heap (host suite) {[1%positive := measured; 2%positive := fft]})
  = fs (with_heap (host suite) {[1%positive := add; 2%positive := fft]})
  ∧ [2%positive]
    = filter (λ p, needs_evaluation {[ "add.txt" := File perf_report ]}
                     (heap (with_heap (host suite)
                              {[1%positive := add; 2%positive := fft]})) p
                   = true)
        [1%positive; 2%positive]
  ∧ ∀ p, p ∈ [1%positive; 2%positive] →
      ∃ b, heap (with_heap (host suite) {[1%positive := add; 2%positive := fft]})
             !! p = Some b
        ∧ (p ∈ [2%positive] ↔
           ({[ "add.txt" := File perf_report ]} : gmap string node)
             !! (Name b +:+ ".txt") = None)
        ∧ (p ∈ [2%positive] →
           heap (with_heap (host suite)
                   {[1%positive := measured; 2%positive := fft]}) !! p
           = Some b)
        ∧ (p ∉ [2%positive] →
           read_at Nd dirs
             (fs (with_heap (host suite) {[1%positive := add; 2%positive := fft]}))
             {[ "add.txt" := File perf_report ]}
             (heap (with_heap (host suite)
                      {[1%positive := add; 2%positive := fft]}))
             (heap (with_heap (host suite)
                      {[1%positive := measured; 2%positive := fft]}))
             p).
Proof.
  apply (unevaluated_iff_no_report Nd dirs [1%positive; 2%positive]
           (with_heap (host suite) {[1%positive := add; 2%positive := fft]})
           [2%positive]
           (with_heap (host suite) {[1%positive := measured; 2%positive := fft]})
           493 {[ "add.txt" := File perf_report ]}).
  - vm_compute. reflexivity.
  - vm_compute. reflexivity.
Defined.

(** The report [two_durations] behind a struct with figures of an
    earlier run: the benchmark is left out, its runtime is that of the
    second line and its uncertainty still that of the earlier run. *)
Lemma cached_durations_pass_for_parsed_witness :
  Get_Unevaluated_Benchmarks Nd dirs [1%positive]
    (with_heap (host (with_report two_durations)) {[1%positive := earlier]})
  = Some (([], None),
          with_heap
            (with_heap (host (with_report two_durations))
               {[1%positive := earlier]})
            (<[1%positive := {| Name := "add"; Path := "src/add";
                                Runtime := get_float Nd (runes "2 ns");
                                Uncertainty := 7 |}]>
               {[1%positive := earlier]})).
Proof.
  refine (cached_durations_pass_for_parsed Nd dirs 1%positive
            (with_heap (host (with_report two_durations))
               {[1%positive := earlier]})
            earlier 493 {[ "add.txt" := File two_durations ]} two_durations
            (runes "1 ns" ++ [10]) (runes "2 ns" ++ [10]) (runes "2 ns")
            _ _ _ _ _ _ _).
  - reflexivity.
  - vm_compute. reflexivity.
  - eexists. reflexivity.
  - vm_compute. reflexivity.
  - vm_compute. reflexivity.
  - apply (bool_decide_unpack _). vm_compute. exact I.
  - vm_compute. reflexivity.
Defined.

(** * The library models on examples *)

(** The tables of [math.Pow10] hold the binary64 numbers nearest to the
    powers of ten. *)
Lemma pow10tab_nearest :
  math.pow10tab
  = (λ i, SF2Prim (binary_normalize 53 1024 (10 ^ Z.of_nat i) 0 false))
      <$> seq 0 32
  ∧ math.pow10postab32
    = (λ i, SF2Prim (binary_normalize 53 1024 (10 ^ (32 * Z.of_nat i)) 0 false))
        <$> seq 0 10.
Proof. split; vm_compute; reflexivity. Qed.

Lemma match_duration_examples :
  match_exp (runes "     1,234,567 ns   duration_time  ( +-  3.45% )")
    match_duration_exp = (runes "1,234,567 ns", None)
  ∧ match_exp (runes "12,000ns") match_duration_exp = (runes "12,000ns", None)
  ∧ match_exp (runes "1,,2 ns") match_duration_exp = (runes "2 ns", None)
  ∧ match_exp (runes "0.001234 seconds time elapsed") match_duration_exp
    = ([], Some "No match found!"%string).
Proof. repeat split; vm_compute; reflexivity. Qed.

Lemma match_uncertainty_examples :
  match_exp (runes "     1,234,567 ns   duration_time  ( +-  3.45% )")
    match_uncertainty_exp = (runes "3.45%", None)
  ∧ match_exp (runes "10 runs, 12x5%") match_uncertainty_exp
    = (runes "12x5%", None)
  ∧ match_exp (runes "3. 45 %") match_uncertainty_exp
    = ([], Some "No match found!"%string).
Proof. repeat split; vm_compute; reflexivity. Qed.

Lemma get_float_examples :
  get_float Nd (runes "1,234,567 ns") = 1234567%float
  ∧ get_float Nd (runes "3.45%") = 0x1.b99999999999ap+1%float
  ∧ get_float Nd (runes "1.2.3") = (123 / 100)%float.
Proof. repeat split; vm_compute; reflexivity. Qed.

(** * The further properties on the example host *)

Lemma get_files_by_suffix_files_witness :
  ∃ names,
    get_files_by_suffix "src/add" ".c" c_tree
    = (in_directory "src/add" <$> names, None)
    ∧ (∀ name, name ∈ names ↔
         (∃ data,
            ({[ "util.c" := File []; "add.c" := File [];
                "README.md" := File []; "old.c" := Dir 493 ∅ ]}
               : gmap string node) !! name = Some (File data))
         ∧ ∃ pre, name = pre +:+ ".c")
    ∧ NoDup names
    ∧ StronglySorted name_le names.
Proof.
  apply (get_files_by_suffix_files "src/add" ".c" c_tree 493).
  vm_compute. reflexivity.
Defined.

Lemma compile_with_sources_witness :
  ∃ names,
    (∀ n, n ∈ names ↔
       (∃ data',
          ({[ "util.c" := File []; "add.c" := File [];
              "README.md" := File []; "old.c" := Dir 493 ∅ ]}
             : gmap string node) !! n = Some (File data'))
       ∧ ∃ pre, n = pre +:+ ".c")
    ∧ NoDup names
    ∧ StronglySorted name_le names
    ∧ compile_benchmark no_tools dirs 1%positive "cc" (host c_tree)
      = Run no_tools
          {| Cmd_Args :=
               "cc" :: "-o" :: ("bin" +:+ "/" +:+ "add")
               :: (in_directory "src/add" <$> names);
             Cmd_Env := ["PATH=/usr/bin"] |}%string
          (host c_tree).
Proof.
  refine (compile_with_sources no_tools dirs 1%positive "cc" (host c_tree) add
            493 _ "add.c" [] _ _ _ _).
  - reflexivity.
  - vm_compute. reflexivity.
  - reflexivity.
  - by exists "add"%string.
Defined.

Lemma get_float_ignores_witness :
  get_float Nd (runes "1.5" ++ 46 :: runes "2 %")
  = get_float Nd (runes "1.5" ++ runes "2 %").
Proof.
  apply get_float_ignores.
  - reflexivity.
  - right. vm_compute. right. left.
Defined.

Lemma duration_match_digits_witness :
  (∃ pre post,
     runes "   1,234,567 ns   duration_time ( +- 3.45% )"
     = pre ++ runes "1,234,567 ns" ++ post)
  ∧ (∃ d body, runes "1,234,567 ns" = d :: body ++ [110; 115]
               ∧ ascii_digit d ∧ Forall duration_rune body)
  ∧ get_float Nd (runes "1,234,567 ns")
    = (fold_left assemble (filter ascii_digit (runes "1,234,567 ns")) 0
       / math.Pow10 0)%float.
Proof.
  apply (duration_match_digits Nd
           (runes "   1,234,567 ns   duration_time ( +- 3.45% )")).
  vm_compute. reflexivity.
Defined.

Lemma uncertainty_match_digits_witness :
  (∃ pre post,
     runes "   1,234,567 ns   duration_time ( +- 3.45% )"
     = pre ++ runes "3.45%" ++ post)
  ∧ ∃ u x v,
      runes "3.45%" = u ++ x :: v ++ [37]
      ∧ u ≠ [] ∧ v ≠ []
      ∧ Forall ascii_digit u ∧ Forall ascii_digit v ∧ x ≠ 10
      ∧ (x = 46 →
         get_float Nd (runes "3.45%")
         = (fold_left assemble (u ++ v) 0
            / math.Pow10 (Z.of_nat (length v)))%float)
      ∧ (IsDigit Nd x = false → x ≠ 46 →
         get_float Nd (runes "3.45%")
         = (fold_left assemble (u ++ v) 0 / math.Pow10 0)%float).
Proof.
  apply (uncertainty_match_digits Nd
           (runes "   1,234,567 ns   duration_time ( +- 3.45% )")).
  vm_compute. reflexivity.
Defined.

Lemma duration_ahead_spoils_the_count_witness :
  get_benchmark_results Nd dirs 1%positive (host (with_report stale_report))
  = Some (Some IncompleteReport,
          with_heap (host (with_report stale_report))
            (<[1%positive := measured]> (heap (host (with_report stale_report))))).
Proof.
  refine (duration_ahead_spoils_the_count Nd dirs 1%positive
            (host (with_report stale_report)) add stale_report
            [runes "elapsed 7 ns" ++ [10]]
            (runes "         1,234,567 ns   duration_time    ( +-  3.45% )"
             ++ [10])
            [[]]
            (runes "1,234,567 ns") (runes "3.45%") _ _ _ _ _ _ _).
  - reflexivity.
  - vm_compute. reflexivity.
  - vm_compute. reflexivity.
  - constructor; [|constructor]. intros _. vm_compute. reflexivity.
  - left. vm_compute. reflexivity.
  - vm_compute. reflexivity.
  - vm_compute. reflexivity.
Defined.

(** The report as a file, missing from the results directory, below a
    plain file [stats], and as a directory. *)
Lemma get_benchmark_results_touches_measurements_witness :
  (∃ err r u,
     get_benchmark_results Nd dirs 1%positive (host (with_report perf_report))
     = Some (err, with_heap (host (with_report perf_report))
                    (<[1%positive := overwrite r u add]>
                       (heap (host (with_report perf_report))))))
  ∧ get_benchmark_results Nd dirs 1%positive
      (host (Dir 493 {[ "stats" := Dir 493 ∅ ]}))
    = Some (Some (os.PathError "open" "stats/add.txt" os.ENOENT),
            host (Dir 493 {[ "stats" := Dir 493 ∅ ]}))
  ∧ get_benchmark_results Nd dirs 1%positive
      (host (Dir 493 {[ "stats" := File [] ]}))
    = Some (Some (os.PathError "open" "stats/add.txt" os.ENOTDIR),
            host (Dir 493 {[ "stats" := File [] ]}))
  ∧ get_benchmark_results Nd dirs 1%positive
      (host (Dir 493 {[ "stats" := Dir 493 {[ "add.txt" := Dir 493 ∅ ]} ]}))
    = Some (Some (os.PathError "read" "stats/add.txt" os.EISDIR),
            host (Dir 493 {[ "stats" := Dir 493 {[ "add.txt" := Dir 493 ∅ ]} ]})).
Proof.
  split_and!.
  - apply (get_benchmark_results_touches_measurements Nd dirs 1%positive
             (host (with_report perf_report)) add).
    reflexivity.
  - apply (get_benchmark_results_touches_measurements Nd dirs 1%positive
             (host (Dir 493 {[ "stats" := Dir 493 ∅ ]})) add eq_refl)
      with (perm := 493) (es := ∅).
    + reflexivity.
    + vm_compute. reflexivity.
    + reflexivity.
  - apply (get_benchmark_results_touches_measurements Nd dirs 1%positive
             (host (Dir 493 {[ "stats" := File [] ]})) add eq_refl)
      with (data := []).
    + reflexivity.
    + vm_compute. reflexivity.
  - apply (get_benchmark_results_touches_measurements Nd dirs 1%positive
             (host (Dir 493 {[ "stats" := Dir 493 {[ "add.txt" := Dir 493 ∅ ]} ]}))
             add eq_refl)
      with (perm := 493) (es := ∅).
    vm_compute. reflexivity.
Defined.

(** The report of [perf]: the first case. *)
Lemma get_benchmark_results_success_witness :
  ∃ b data,
    heap (host (with_report perf_report)) !! 1%positive = Some b
    ∧ os.Open (report_path dirs b) (fs (host (with_report perf_report)))
      = (Some (File data), None)
    ∧ ((∃ pre line post md mu,
          file_lines data = pre ++ line :: post
          ∧ Forall (λ l, has_duration l = false) pre
          ∧ match_exp line match_duration_exp = (md, None)
          ∧ match_exp line match_uncertainty_exp = (mu, None)
          ∧ with_heap (host (with_report perf_report)) {[1%positive := measured]}
            = with_heap (host (with_report perf_report))
                (<[1%positive := {| Name := Name b; Path := Path b;
                                    Runtime := get_float Nd md;
                                    Uncertainty := get_float Nd mu |}]>
                   (heap (host (with_report perf_report)))))
       ∨ (∃ l1 l2 m2,
            filter (λ l, has_duration l = true) (file_lines data) = [l1; l2]
            ∧ has_uncertainty l1 = false ∧ has_uncertainty l2 = false
            ∧ match_exp l2 match_duration_exp = (m2, None)
            ∧ with_heap (host (with_report perf_report))
                {[1%positive := measured]}
              = with_heap (host (with_report perf_report))
                  (<[1%positive := {| Name := Name b; Path := Path b;
                                      Runtime := get_float Nd m2;
                                      Uncertainty := Uncertainty b |}]>
                     (heap (host (with_report perf_report)))))).
Proof.
  apply (get_benchmark_results_success Nd dirs 1%positive
           (host (with_report perf_report))
           (with_heap (host (with_report perf_report))
              {[1%positive := measured]})).
  vm_compute. reflexivity.
Defined.

Lemma filter_touches_measurements_witness :
  ∃ h',
    with_heap (host tree) {[1%positive := measured]} = with_heap (host tree) h'
    ∧ [] `sublist_of` [1%positive]
    ∧ (∀ q, q ∉ [1%positive] → h' !! q = heap (host tree) !! q)
    ∧ (∀ q b, heap (host tree) !! q = Some b →
              ∃ r u, h' !! q = Some (overwrite r u b)).
Proof.
  apply (filter_touches_measurements Nd dirs [1%positive] (host tree) [] None).
  vm_compute. reflexivity.
Defined.

Lemma bad_report_ends_filtering_witness :
  Get_Unevaluated_Benchmarks Nd dirs ([] ++ 1%positive :: [1%positive])
    (host (with_report duration_first))
  = Some (([], Some ("Unable to read results: " +:+ IncompleteReport)),
          with_heap (host (with_report duration_first)) {[1%positive := timed]}).
Proof.
  refine (bad_report_ends_filtering Nd dirs [] 1%positive [1%positive]
            (host (with_report duration_first)) []
            (host (with_report duration_first)) add 493
            {[ "add.txt" := File duration_first ]} IncompleteReport _ _ _ _ _ _).
  - reflexivity.
  - reflexivity.
  - vm_compute. reflexivity.
  - eexists. reflexivity.
  - vm_compute. reflexivity.
Defined.

Lemma Init_Env_again_witness :
  Init_Env dirs
    (with_fs (host (Dir 493 ∅))
       (Dir 493 {[ "stats" := Dir 493 ∅; "bin" := Dir 493 ∅ ]}))
  = Some (None,
          with_fs (host (Dir 493 ∅))
            (Dir 493 {[ "stats" := Dir 493 ∅; "bin" := Dir 493 ∅ ]})).
Proof.
  apply (Init_Env_again dirs (host (Dir 493 ∅))).
  - repeat split; done.
  - repeat split; done.
  - vm_compute. reflexivity.
Defined.

Lemma Init_Env_again_with_separator_witness :
  Init_Env {| Src := "src"; Stats := "out/stats"; Bin := "bin" |}
    (with_fs (host (Dir 493 {[ "out" := Dir 493 ∅ ]}))
       (Dir 493 {[ "out" := Dir 493 {[ "stats" := Dir 493 ∅ ]};
                   "bin" := Dir 493 ∅ ]}))
  = Some (Some (os.PathError "mkdir" "out/stats" os.EEXIST),
          with_fs (host (Dir 493 {[ "out" := Dir 493 ∅ ]}))
            (Dir 493 {[ "out" := Dir 493 {[ "stats" := Dir 493 ∅ ]};
                        "bin" := Dir 493 ∅ ]})).
Proof.
  apply (Init_Env_again_with_separator
           {| Src := "src"; Stats := "out/stats"; Bin := "bin" |}
           (host (Dir 493 {[ "out" := Dir 493 ∅ ]}))).
  - reflexivity.
  - reflexivity.
  - vm_compute. reflexivity.
Defined.

(** Three benchmarks, found as [add], [fft], [md5]. *)
Lemma discovery_in_name_order_witness :
  ∃ bs,
    Forall2 (λ p b,
               heap (with_heap (host suite)
                       {[1%positive := add; 2%positive := add;
                         3%positive := fft; 4%positive := md5]}) !! p
               = Some b)
            [2%positive; 3%positive; 4%positive] bs
    ∧ StronglySorted name_le (Name <$> bs).
Proof.
  apply (discovery_in_name_order dirs (host suite)
           [2%positive; 3%positive; 4%positive]
           (with_heap (host suite)
              {[1%positive := add; 2%positive := add;
                3%positive := fft; 4%positive := md5]})).
  vm_compute. reflexivity.
Defined.

(** [add] is compiled and then measured. *)
Lemma Evaluate_Benchmark_done_witness :
  ∃ file b' cmds,
    os.Open (report_path dirs add) (fs after_build) = (Some file, None)
    ∧ read_lines Nd (bufio.NewReader (report_path dirs add) file) add 0
      = (b', 2, None)
    ∧ heap after_build = <[1%positive := b']> (heap (host c_tree))
    ∧ spawned after_build
      = spawned (host c_tree) ++ cmds
        ++ [perf_command dirs add 10 (environ (host c_tree))]
    ∧ (cmds = []
       ∨ ∃ sources,
           sources ≠ []
           ∧ cmds = [compile_command dirs add "cc" sources
                       (environ (host c_tree))]).
Proof.
  apply (Evaluate_Benchmark_done Nd toolchain "cc" dirs 10 1%positive
           (host c_tree) add after_build).
  - reflexivity.
  - vm_compute. reflexivity.
Defined.

(** The compiler is run for [add] and fails. *)
Lemma failed_compile_ends_evaluation_witness :
  Evaluate_Benchmark Nd no_tools "cc" dirs 10 1%positive (host c_tree)
  = Some (Some ("Problem compiling benchmark: " +:+ "exit status 127"),
          after_failed_build)
  ∧ heap after_failed_build = heap (host c_tree)
  ∧ (spawned after_failed_build = spawned (host c_tree)
     ∨ ∃ sources,
         sources ≠ []
         ∧ spawned after_failed_build
           = spawned (host c_tree)
             ++ [compile_command dirs add "cc" sources (environ (host c_tree))]).
Proof.
  refine (failed_compile_ends_evaluation Nd no_tools "cc" dirs 10 1%positive
            (host c_tree) add 493 ∅ "exit status 127" after_failed_build
            _ _ _ _).
  - reflexivity.
  - vm_compute. reflexivity.
  - reflexivity.
  - vm_compute. reflexivity.
Defined.

Lemma main_from_cache_witness :
  fst <$> main Nd no_tools name_row (bare cached_root) = Some 0
  ∧ spawned <$> (snd <$> main Nd no_tools name_row (bare cached_root)) = Some [].
Proof.
  edestruct (main_from_cache Nd no_tools name_row (bare cached_root))
    as (Hmain & _ & Hspawned).
  - vm_compute. reflexivity.
  - vm_compute. reflexivity.
  - vm_compute. reflexivity.
  - rewrite Hmain. split; [reflexivity|]. vm_compute. reflexivity.
Defined.

Lemma main_fails_fast_witness :
  fst <$> main Nd no_tools name_row (bare empty_root) = Some 1.
Proof.
  erewrite (main_fails_fast Nd no_tools name_row (bare empty_root) _ _ _ []).
  - reflexivity.
  - vm_compute. reflexivity.
  - vm_compute. reflexivity.
  - vm_compute. reflexivity.
  - vm_compute. reflexivity.
  - vm_compute. reflexivity.
Defined.
